(** * Intersect Engine auto reboot tool: the supervisor of [auto_reboot_tool.py]

    A shallow embedding of class [AutoRebootTool]: the schedule calculator
    ([get_next_reboot_time]), the announcement planner
    ([schedule_announcements]), the process controller ([start_server],
    [send_command], [wait_for_server_exit]) and the supervisor loop
    ([reboot_cycle], [stop]), followed by the properties of each.

    Conventions of the embedding.
    - A naive [datetime] is the number of microseconds since midnight of
      day 0 of the proleptic calendar, an unbounded [Z]; a [timedelta] is a
      number of microseconds.  Python's ceiling at year 9999 is not modelled.
    - A value read from the configuration file is a [json] where the code
      looks at what kind of value it is, and a number or a string where the
      code computes with it.
    - Python exceptions are values of [exn]; a computation that may raise
      returns a [result].
    - Methods that act on [self] and on the operating system are computations
      in the monad [M] over a [World]: the fields of [self], the clock, the
      child process and the trace of actions performed so far. *)

From Stdlib Require Import ZArith List Bool String Ascii Lia.
From Stdlib Require Import DecimalString.
From Stdlib Require PrimFloat.
Import ListNotations.
Open Scope string_scope.
Open Scope Z_scope.

(** ** Exceptions and results *)

(** The exceptions the modelled operations raise, all of them subclasses of
    [Exception].  [KeyboardInterrupt] is not among them: Python delivers it
    to the main thread only, and nothing modelled here raises it. *)

Inductive exn : Type :=
| ValueError
| KeyError
| IndexError
| OverflowError
| OSError
| FileNotFoundError
| BrokenPipeError
| TimeoutExpired
| RuntimeError.

Inductive result (A : Type) : Type :=
| Ok (a : A)
| Raise (e : exn).
Arguments Ok {A} a.
Arguments Raise {A} e.

(** ** Values of the configuration file *)

(** What [json.load] returns: [None], a [bool], an [int], a [float], a
    [str], a [list] or a [dict]. *)
#[local] Unset Elimination Schemes.
Inductive json : Type :=
| JNull
| JBool (b : bool)
| JInt (z : Z)
| JFloat (f : PrimFloat.float)
| JStr (s : string)
| JArr (items : list json)
| JObj (members : list (string * json)).
#[local] Set Elimination Schemes.

(** [bool(v)]: what [not v] negates. *)
Definition truthy (v : json) : bool :=
  match v with
  | JNull => false
  | JBool b => b
  | JInt z => negb (z =? 0)
  | JFloat f => negb (PrimFloat.eqb f PrimFloat.zero)
  | JStr s => negb (s =? EmptyString)%string
  | JArr items => match items with [] => false | _ :: _ => true end
  | JObj members => match members with [] => false | _ :: _ => true end
  end.

(** ** Dates and durations *)

Module DateTime.

Definition datetime := Z.
Definition timedelta := Z.

Definition us_per_second : Z := 1000000.
Definition us_per_day : Z := 86400 * us_per_second.

Definition timedelta_days (d : Z) : timedelta := d * us_per_day.
Definition timedelta_minutes (m : Z) : timedelta := m * 60 * us_per_second.
Definition timedelta_seconds (s : Z) : timedelta := s * us_per_second.

(** Midnight of the day [t] lies in. *)
Definition midnight (t : datetime) : datetime := (t / us_per_day) * us_per_day.

(** The integer is one a C [int] holds. *)
Definition fits_c_int (v : Z) : bool := (- 2 ^ 31 <=? v) && (v <? 2 ^ 31).

(** [t.replace(hour=h, minute=m, second=0, microsecond=0)]: the arguments
    are first converted to C [int]s, an [OverflowError] for one that does not
    fit; the constructor then rejects an hour outside 0..23 and a minute
    outside 0..59 with a [ValueError]. *)
Definition replace (t : datetime) (h m : Z) : result datetime :=
  if negb (fits_c_int h && fits_c_int m) then Raise OverflowError
  else if (0 <=? h) && (h <=? 23) && (0 <=? m) && (m <=? 59)
  then Ok (midnight t + (h * 3600 + m * 60) * us_per_second)
  else Raise ValueError.

(** The instant [hh:mm:ss] of day [d]. *)
Definition at_clock (d hh mm ss : Z) : datetime :=
  d * us_per_day + (hh * 3600 + mm * 60 + ss) * us_per_second.

End DateTime.
Import DateTime.

(** ** Configuration *)

(** An entry of [reboot_schedule]: [{hour, minute, enabled?}].  [enabled] is
    [None] when the key is absent and the value of the key otherwise,
    whatever kind of value that is. *)
Record ScheduleEntry : Type := {
  hour : Z;
  minute : Z;
  enabled : option json
}.

(** The truth value of [schedule.get("enabled", True)], which the loop
    negates to skip the entry. *)
Definition get_enabled (s : ScheduleEntry) : bool :=
  match enabled s with
  | Some v => truthy v
  | None => true
  end.

(** ** Schedule calculator *)

(** [min(xs)] of a non-empty list, head first. *)
Definition py_min (x : Z) (xs : list Z) : Z :=
  fold_left (fun acc y => if y <? acc then y else acc) xs x.

(** The body of the [for schedule in ...] loop of [get_next_reboot_time],
    with [reboot_times] as the accumulator. *)
Fixpoint collect_reboot_times (now : datetime) (schedule : list ScheduleEntry)
         (reboot_times : list datetime) : result (list datetime) :=
  match schedule with
  | [] => Ok reboot_times
  | s :: rest =>
      if negb (get_enabled s) then collect_reboot_times now rest reboot_times
      else
        match replace now (hour s) (minute s) with
        | Raise e => Raise e
        | Ok reboot_time =>
            let reboot_time :=
              if reboot_time <=? now then reboot_time + timedelta_days 1
              else reboot_time in
            collect_reboot_times now rest (reboot_times ++ [reboot_time])
        end
  end.

(** [get_next_reboot_time], as a function of [datetime.now()] and of
    [config["reboot_schedule"]]. *)
Definition get_next_reboot_time (now : datetime) (schedule : list ScheduleEntry)
  : result (option datetime) :=
  match collect_reboot_times now schedule [] with
  | Raise e => Raise e
  | Ok [] => Ok None
  | Ok (t :: ts) => Ok (Some (py_min t ts))
  end.

(** *** The calculator as the specification words it *)

(** Today's date at [(hour, minute, 0)], advanced by one day when it is not
    after [now]. *)
Definition candidate (now : datetime) (s : ScheduleEntry) : datetime :=
  let today := midnight now + (hour s * 3600 + minute s * 60) * us_per_second in
  if today <=? now then today + us_per_day else today.

Definition is_minimum (t : Z) (cs : list Z) : Prop :=
  In t cs /\ forall c, In c cs -> t <= c.

Definition well_formed (s : ScheduleEntry) : Prop :=
  0 <= hour s <= 23 /\ 0 <= minute s <= 59.

Definition enabled_entries (schedule : list ScheduleEntry) : list ScheduleEntry :=
  filter get_enabled schedule.

(** ** Strings *)

Module PyStr.

Definition nl : string := String "010"%char EmptyString.
Definition dquote : string := String "034"%char EmptyString.
Definition squote : string := String "039"%char EmptyString.

(** [sub in s] *)
Fixpoint contains (sub s : string) : bool :=
  match s with
  | EmptyString => prefix sub EmptyString
  | String _ s' => prefix sub s || contains sub s'
  end.

(** [sep.join(l)] *)
Fixpoint join (sep : string) (l : list string) : string :=
  match l with
  | [] => EmptyString
  | [x] => x
  | x :: rest => x ++ sep ++ join sep rest
  end.

Definition lower_char (c : ascii) : ascii :=
  let n := nat_of_ascii c in
  if (Nat.leb 65 n && Nat.leb n 90)%bool then ascii_of_nat (n + 32) else c.

(** [s.lower()], on ASCII letters. *)
Fixpoint lower (s : string) : string :=
  match s with
  | EmptyString => EmptyString
  | String c s' => String (lower_char c) (lower s')
  end.

Definition is_space (c : ascii) : bool :=
  let n := nat_of_ascii c in
  (Nat.leb 9 n && Nat.leb n 13) || (Nat.leb 28 n && Nat.leb n 32).

Fixpoint lstrip (s : string) : string :=
  match s with
  | EmptyString => EmptyString
  | String c s' => if is_space c then lstrip s' else s
  end.

Fixpoint rstrip (s : string) : string :=
  match s with
  | EmptyString => EmptyString
  | String c s' =>
      match rstrip s' with
      | EmptyString => if is_space c then EmptyString else String c EmptyString
      | r => String c r
      end
  end.

(** [s.strip()] *)
Definition strip (s : string) : string := rstrip (lstrip s).

(** [str(n)] of an integer. *)
Definition str (n : Z) : string := NilZero.string_of_int (Z.to_int n).

Definition is_digit (c : ascii) : bool :=
  let n := nat_of_ascii c in Nat.leb 48 n && Nat.leb n 57.

Fixpoint all_digits (s : string) : bool :=
  match s with
  | EmptyString => true
  | String c s' => is_digit c && all_digits s'
  end.

(** *** [template.format(key=value)] with one integer keyword argument

    The template is read left to right as CPython's markup iterator does:
    literal text; the escapes of a doubled brace; a single closing brace,
    which is a [ValueError]; and replacement fields.  A field that is the
    plain name [key] is replaced by [str(value)]; an empty field asks for
    positional argument 0, of which there is none ([IndexError]); another
    plain name is a missing keyword ([KeyError]); an opening brace inside a
    field name and a field left open are [ValueError]s.  What Python does
    with a field that carries an index, an attribute, a conversion or a
    format specification, or whose name is a number, is not modelled
    here: it is the parameter [other], applied to the text that follows the
    opening brace of that field and giving the outcome for the rest of the
    template. *)

Inductive fstate : Type :=
| Lit                              (* in literal text *)
| Opened                           (* just after an opening brace *)
| Closed                           (* just after a closing brace in literal text *)
| Field (start name : string).     (* in a field: the text from its start, the name so far *)

Definition is_special (c : ascii) : bool :=
  (c =? "[")%char || (c =? ":")%char || (c =? "!")%char || (c =? ".")%char.

Definition prepend (p : string) (r : result string) : result string :=
  match r with
  | Ok s => Ok (p ++ s)
  | Raise e => Raise e
  end.

Section Format.
Variable other : string -> Z -> result string.
Variable key : string.
Variable value : Z.

(** The field [name] is complete; [k] is the outcome for the text after its
    closing brace. *)
Definition resolve (start name : string) (k : result string) : result string :=
  if (name =? key)%string then prepend (str value) k
  else if (name =? EmptyString)%string then Raise IndexError
  else if all_digits name then other start value
  else Raise KeyError.

Fixpoint format_from (st : fstate) (s : string) : result string :=
  match s with
  | EmptyString =>
      match st with
      | Lit => Ok EmptyString
      | Opened | Closed | Field _ _ => Raise ValueError
      end
  | String c s' =>
      match st with
      | Lit =>
          if (c =? "{")%char then format_from Opened s'
          else if (c =? "}")%char then format_from Closed s'
          else prepend (String c EmptyString) (format_from Lit s')
      | Closed =>
          if (c =? "}")%char then prepend "}" (format_from Lit s')
          else Raise ValueError
      | Opened =>
          if (c =? "{")%char then prepend "{" (format_from Lit s')
          else if (c =? "}")%char then resolve s EmptyString (format_from Lit s')
          else if is_special c then other s value
          else format_from (Field s (String c EmptyString)) s'
      | Field start name =>
          if (c =? "}")%char then resolve start name (format_from Lit s')
          else if (c =? "{")%char then Raise ValueError
          else if is_special c then other start value
          else format_from (Field start (name ++ String c EmptyString)) s'
      end
  end.

Definition format (template : string) : result string :=
  format_from Lit template.
End Format.

End PyStr.
Import PyStr.

(** [sorted(l, key=key, reverse=True)]: a stable sort, larger keys first,
    equal keys in their original order. *)
Section Sorted.
Context {A : Type} (key : A -> Z).

Fixpoint insert_desc (x : A) (l : list A) : list A :=
  match l with
  | [] => [x]
  | y :: l' => if key x <? key y then y :: insert_desc x l' else x :: l
  end.

Definition sorted_reverse (l : list A) : list A :=
  fold_right insert_desc [] l.

(** Larger keys first. *)
Fixpoint descending (l : list A) : Prop :=
  match l with
  | [] => True
  | x :: l' => Forall (fun y => key y <= key x) l' /\ descending l'
  end.
End Sorted.

(** ** Configuration, continued *)

(** An entry of [announcement_intervals]; an offset is [None] when its key is
    absent. *)
Record Interval : Type := {
  seconds_before : option Z;
  minutes_before : option Z;
  message : string
}.

Record Config : Type := {
  server_path : string;
  server_args : list string;            (* [config.get("server_args", [])] *)
  reboot_schedule : list ScheduleEntry;
  announcement_intervals : list Interval;
  restart_delay_seconds : Z
}.

(** ** The child process and the surroundings of the tool *)

Inductive Pipe : Type := PipeOpen | PipeClosed.

(** A [subprocess.Popen] object together with the child behind it.  [ends] is
    the instant at which the child is gone and its return code, once that is
    settled; [exit_delay] and [term_delay] say how long after an [exit] line,
    respectively a terminate request, the child goes away, [None] when it
    ignores them.  A kill is immediate. *)
Record Popen : Type := {
  pid : Z;
  stdin : option Pipe;
  ends : option (datetime * Z);
  exit_delay : option timedelta;
  term_delay : option timedelta
}.

(** What a launch yields, as the environment decides it. *)
Record ChildSpec : Type := {
  spec_pid : Z;
  spec_lifetime : option (timedelta * Z);  (* exits on its own after this long, with this code *)
  spec_exit_delay : option timedelta;
  spec_term_delay : option timedelta
}.

(** The parts of the platform the tool calls and this development does not
    define: [pathlib], [subprocess.Popen], the files of the child's log
    directory, the part of [str.format] left open in [PyStr.format], and
    for how long the control thread is still running at a given instant
    (nothing or less when it has finished). *)
Record Env : Type := {
  path_exists : string -> result bool;   (* [Path.exists()] may raise [OSError] *)
  path_name : string -> string;
  path_parent : string -> string;
  path_join : string -> string -> string;
  path_resolve : string -> result string;
  win32 : bool;
  spawn : nat -> list string -> string -> bool -> result ChildSpec;
  glob_logs : string -> result (list (string * Z));   (* [*.log] files with [st_mtime] *)
  readlines : string -> result (list string);
  format_other : string -> Z -> result string;
  thread_runs_for : datetime -> timedelta  (* how much longer the control thread runs *)
}.

Inductive level : Type := DEBUG | INFO | WARNING | ERROR.

Inductive logarg : Type :=
| AStr (s : string)
| AInt (z : Z)
| ATime (t : datetime)
| AExn (e : exn).

(** What the tool does to the outside, in order.  A log record keeps the
    text of the call in the source and the values it interpolates. *)
Inductive event : Type :=
| Log (lvl : level) (msg : string) (args : list logarg)
| Sleep (duration : timedelta)
| Spawn (cmd : list string) (cwd : string) (shell : bool)
| StdinWrite (p : Z) (text : string)
| StdinFlush (p : Z)
| Wait (p : Z) (timeout : timedelta)
| Terminate (p : Z)
| Kill (p : Z)
| TimerStart (delay : timedelta) (command : string)
| ThreadStart
| Join (timeout : timedelta).

Record World : Type := {
  (* self *)
  config : Config;
  config_path : string;
  server_process : option Popen;
  running : bool;
  reboot_thread : bool;                 (* [self.reboot_thread] is set *)
  (* the surroundings *)
  env : Env;
  in_reboot_thread : bool;              (* the caller is the control thread *)
  clock : datetime;
  launches : nat;
  trace : list event                    (* oldest first *)
}.

Definition set_server_process (sp : option Popen) (w : World) : World :=
  {| config := config w; config_path := config_path w; server_process := sp;
     running := running w; reboot_thread := reboot_thread w; env := env w;
     in_reboot_thread := in_reboot_thread w; clock := clock w;
     launches := launches w; trace := trace w |}.

Definition set_running (b : bool) (w : World) : World :=
  {| config := config w; config_path := config_path w;
     server_process := server_process w; running := b;
     reboot_thread := reboot_thread w; env := env w;
     in_reboot_thread := in_reboot_thread w; clock := clock w;
     launches := launches w; trace := trace w |}.

Definition set_reboot_thread (b : bool) (w : World) : World :=
  {| config := config w; config_path := config_path w;
     server_process := server_process w; running := running w;
     reboot_thread := b; env := env w;
     in_reboot_thread := in_reboot_thread w; clock := clock w;
     launches := launches w; trace := trace w |}.

Definition set_clock (t : datetime) (w : World) : World :=
  {| config := config w; config_path := config_path w;
     server_process := server_process w; running := running w;
     reboot_thread := reboot_thread w; env := env w;
     in_reboot_thread := in_reboot_thread w; clock := t;
     launches := launches w; trace := trace w |}.

Definition set_launches (n : nat) (w : World) : World :=
  {| config := config w; config_path := config_path w;
     server_process := server_process w; running := running w;
     reboot_thread := reboot_thread w; env := env w;
     in_reboot_thread := in_reboot_thread w; clock := clock w;
     launches := n; trace := trace w |}.

Definition emit (e : event) (w : World) : World :=
  {| config := config w; config_path := config_path w;
     server_process := server_process w; running := running w;
     reboot_thread := reboot_thread w; env := env w;
     in_reboot_thread := in_reboot_thread w; clock := clock w;
     launches := launches w; trace := trace w ++ [e] |}.

(** ** The monad of methods *)

Definition M (A : Type) : Type := World -> result A * World.

Definition ret {A} (a : A) : M A := fun w => (Ok a, w).

Definition bind {A B} (m : M A) (k : A -> M B) : M B :=
  fun w =>
    match m w with
    | (Ok a, w') => k a w'
    | (Raise e, w') => (Raise e, w')
    end.

Definition raise {A} (e : exn) : M A := fun w => (Raise e, w).

(** [try: body  except ...: handler]; [handler e] is [None] when no clause
    matches [e]. *)
Definition try_except {A} (body : M A) (handler : exn -> option (M A)) : M A :=
  fun w =>
    match body w with
    | (Ok a, w') => (Ok a, w')
    | (Raise e, w') =>
        match handler e with
        | Some h => h w'
        | None => (Raise e, w')
        end
    end.

(** The clause [except Exception as e], which matches every [exn]. *)
Definition except_Exception {A} (h : exn -> M A) (e : exn) : option (M A) :=
  Some (h e).

Declare Scope monad_scope.
Delimit Scope monad_scope with monad.
Notation "x <- c1 ;; c2" := (bind c1 (fun x => c2))
  (at level 61, c1 at next level, right associativity) : monad_scope.
Notation "c1 ;; c2" := (bind c1 (fun _ => c2))
  (at level 61, right associativity) : monad_scope.
Open Scope monad_scope.

Definition ask {A} (f : World -> A) : M A := fun w => (Ok (f w), w).
Definition modify (f : World -> World) : M unit := fun w => (Ok tt, f w).
Definition lift {A} (r : result A) : M A := fun w => (r, w).
Definition perform (e : event) : M unit := modify (emit e).
Definition log (lvl : level) (msg : string) (args : list logarg) : M unit :=
  perform (Log lvl msg args).

Fixpoint for_each {A} (l : list A) (body : A -> M unit) : M unit :=
  match l with
  | [] => ret tt
  | x :: rest => body x ;; for_each rest body
  end.

(** ** Primitives *)

(** The lengths [time.sleep] converts to its C time, which counts
    nanoseconds in 64 bits: from -9223372036 to 9223372036 seconds. *)
Definition fits_c_time (d : timedelta) : bool :=
  (- 2 ^ 63 <=? d * 1000) && (d * 1000 <=? 2 ^ 63 - 1).

(** [time.sleep(d)]: a length that does not convert is an [OverflowError],
    a negative one that does a [ValueError]. *)
Definition sleep (d : timedelta) : M unit :=
  if negb (fits_c_time d) then raise OverflowError
  else if d <? 0 then raise ValueError
  else perform (Sleep d) ;; modify (fun w => set_clock (clock w + d) w).

(** [p.poll()] at instant [t]: the return code once the child is gone. *)
Definition poll (p : Popen) (t : datetime) : option Z :=
  match ends p with
  | Some (t_end, code) => if t_end <=? t then Some code else None
  | None => None
  end.

Definition end_at (t : datetime) (code : Z) (p : Popen) : Popen :=
  {| pid := pid p; stdin := stdin p; ends := Some (t, code);
     exit_delay := exit_delay p; term_delay := term_delay p |}.

(** The child goes away at [t] unless it is already due to go earlier. *)
Definition end_by (t : datetime) (code : Z) (p : Popen) : Popen :=
  match ends p with
  | Some (t0, _) => if t0 <=? t then p else end_at t code p
  | None => end_at t code p
  end.

(** [self.server_process] where the source has checked that it is set. *)
Definition the_process : M Popen :=
  fun w =>
    match server_process w with
    | Some p => (Ok p, w)
    | None => (Raise RuntimeError, w)    (* an attribute of [None] *)
    end.

Definition is_alive : M bool :=
  fun w =>
    match server_process w with
    | Some p => (Ok (match poll p (clock w) with None => true | Some _ => false end), w)
    | None => (Ok false, w)
    end.

(** [p.stdin.write(text)] on the line-buffered pipe: a closed file object is a
    [ValueError], a child that is gone a [BrokenPipeError]; a child that
    heeds the [exit] line goes away [exit_delay] later. *)
Definition stdin_write (text : string) : M unit :=
  p <- the_process ;;
  t <- ask clock ;;
  match stdin p with
  | None => raise RuntimeError
  | Some PipeClosed => raise ValueError
  | Some PipeOpen =>
      match poll p t with
      | Some _ => raise BrokenPipeError
      | None =>
          perform (StdinWrite (pid p) text) ;;
          match exit_delay p with
          | Some d =>
              if (text =? "exit" ++ nl)%string
              then modify (set_server_process (Some (end_by (t + d) 0 p)))
              else ret tt
          | None => ret tt
          end
      end
  end.

Definition stdin_flush : M unit :=
  p <- the_process ;;
  match stdin p with
  | None => raise RuntimeError
  | Some PipeClosed => raise ValueError
  | Some PipeOpen => perform (StdinFlush (pid p))
  end.

(** [p.wait(timeout=timeout)] *)
Definition proc_wait (timeout : timedelta) : M unit :=
  p <- the_process ;;
  t <- ask clock ;;
  perform (Wait (pid p) timeout) ;;
  match ends p with
  | Some (t_end, _) =>
      if t_end <=? t + timeout
      then modify (set_clock (Z.max t t_end))
      else modify (set_clock (t + timeout)) ;; raise TimeoutExpired
  | None => modify (set_clock (t + timeout)) ;; raise TimeoutExpired
  end.

(** [p.terminate()] *)
Definition proc_terminate : M unit :=
  p <- the_process ;;
  t <- ask clock ;;
  perform (Terminate (pid p)) ;;
  match poll p t, term_delay p with
  | None, Some d => modify (set_server_process (Some (end_by (t + d) (-15) p)))
  | _, _ => ret tt
  end.

(** [p.kill()] *)
Definition proc_kill : M unit :=
  p <- the_process ;;
  t <- ask clock ;;
  perform (Kill (pid p)) ;;
  match poll p t with
  | None => modify (set_server_process (Some (end_by t (-9) p)))
  | Some _ => ret tt
  end.

(** [self.server_process = subprocess.Popen(cmd, stdin=PIPE, ..., cwd=cwd)] *)
Definition popen (cmd : list string) (cwd : string) (shell : bool) : M unit :=
  e <- ask env ;;
  n <- ask launches ;;
  t <- ask clock ;;
  perform (Spawn cmd cwd shell) ;;
  modify (set_launches (S n)) ;;
  match spawn e n cmd cwd shell with
  | Raise x => raise x
  | Ok c =>
      modify (set_server_process (Some
        {| pid := spec_pid c;
           stdin := Some PipeOpen;
           ends := match spec_lifetime c with
                   | Some (d, code) => Some (t + d, code)
                   | None => None
                   end;
           exit_delay := spec_exit_delay c;
           term_delay := spec_term_delay c |}))
  end.

(** [threading.Timer(delay, self.send_command, args=[command]).start()] *)
Definition timer_start (delay : timedelta) (command : string) : M unit :=
  perform (TimerStart delay command).

(** [self.reboot_thread.join(timeout=timeout)]: a thread cannot join
    itself; the caller is held until the control thread has finished, for
    [timeout] at most. *)
Definition thread_join (timeout : timedelta) : M unit :=
  me <- ask in_reboot_thread ;;
  if me then raise RuntimeError
  else
    e <- ask env ;;
    t <- ask clock ;;
    perform (Join timeout) ;;
    modify (set_clock (t + Z.max 0 (Z.min timeout (thread_runs_for e t)))).

(** ** Process controller *)

(** The scan of the child's newest log file in [start_server]. *)
Definition port_failure (line : string) : bool :=
  let l := lower line in
  contains "port" l && (contains "fail" l || contains "error" l || contains "listen" l).

Definition last_lines (lines : list string) : list string :=
  skipn (List.length lines - 10) lines.

Definition scan_log (lines : list string) : M unit :=
  match lines with
  | [] => ret tt
  | _ =>
      let last := last_lines lines in
      match find port_failure (rev last) with
      | Some line => log ERROR "Server log error: {line.strip()}" [AStr (strip line)]
      | None =>
          if contains "ERR" (join EmptyString last) then
            match find (contains "ERR") (rev last) with
            | Some line => log ERROR "Server log: {line.strip()}" [AStr (strip line)]
            | None => ret tt
            end
          else ret tt
      end
  end.

Definition check_server_logs (log_dir : string) : M unit :=
  e <- ask env ;;
  there <- lift (path_exists e log_dir) ;;
  if there then
    found <- lift (glob_logs e log_dir) ;;
    match sorted_reverse snd found with
    | [] => ret tt
    | (newest, _) :: _ =>
        try_except
          (lines <- lift (readlines e newest) ;; scan_log lines)
          (except_Exception (fun x =>
             log DEBUG "Could not read log file: {e}" [AExn x]))
    end
  else ret tt.

(** The [try] block of [start_server], from the resolved path on. *)
Definition launch (located : string) : M bool :=
  e <- ask env ;;
  cfg <- ask config ;;
  resolved <- lift (path_resolve e located) ;;
  let working_dir := path_parent e resolved in
  let cmd := resolved :: server_args cfg in
  log INFO "Starting server: {' '.join(cmd)}" [AStr (join " " cmd)] ;;
  log INFO "Working directory: {working_dir}" [AStr working_dir] ;;
  log INFO "Starting server in directory: {working_dir}" [AStr working_dir] ;;
  (if win32 e && contains " " resolved then
     let cmd_str :=
       dquote ++ resolved ++ dquote ++
       match server_args cfg with
       | [] => EmptyString
       | args => " " ++ join " " args
       end in
     popen [cmd_str] working_dir true
   else popen cmd working_dir false) ;;
  try_except
    (p <- the_process ;;
     match stdin p with
     | Some _ =>
         stdin_write nl ;; stdin_flush ;;
         log DEBUG "Primed stdin with newline" []
     | None => ret tt
     end)
    (except_Exception (fun x => log WARNING "Could not prime stdin: {e}" [AExn x])) ;;
  sleep (timedelta_seconds 3) ;;
  p <- the_process ;;
  t <- ask clock ;;
  match poll p t with
  | Some return_code =>
      log ERROR "Server process exited immediately with code: {return_code}"
          [AInt return_code] ;;
      let log_dir := path_join e working_dir "logs" in
      check_server_logs log_dir ;;
      log ERROR "Common issues: Port already in use, missing config files, or database connection problems" [] ;;
      log ERROR "Check server logs in: {log_dir}" [AStr log_dir] ;;
      ret false
  | None =>
      log INFO "Server started with PID: {self.server_process.pid}" [AInt (pid p)] ;;
      ret true
  end.

Definition start_server : M bool :=
  e <- ask env ;;
  cfg <- ask config ;;
  cpath <- ask config_path ;;
  let path := server_path cfg in
  missing <-
    (there <- lift (path_exists e path) ;;
     if there then ret false
     else
       named <- lift (path_exists e (path_name e path)) ;;
       ret (negb named)) ;;
  located <-
    (if missing then
       let beside := path_join e (path_parent e cpath) path in
       there <- lift (path_exists e beside) ;;
       if negb there then
         log ERROR "Server executable not found: {self.config['server_path']}"
             [AStr path] ;;
         ret None
       else ret (Some beside)
     else ret (Some path)) ;;
  match located with
  | None => ret false
  | Some path =>
      try_except (launch path)
        (except_Exception (fun x =>
           log ERROR "Failed to start server: {e}" [AExn x] ;; ret false))
  end.

Definition send_command (command : string) : M bool :=
  sp <- ask server_process ;;
  match sp with
  | Some {| stdin := Some _ |} =>
      try_except
        (log INFO "Sending command: {command}" [AStr command] ;;
         stdin_write (command ++ nl) ;;
         stdin_flush ;;
         ret true)
        (except_Exception (fun x =>
           log ERROR "Failed to send command '{command}': {e}" [AStr command; AExn x] ;;
           ret false))
  | _ =>
      log ERROR "Server process not running or stdin not available" [] ;;
      ret false
  end.

(** [wait_for_server_exit(timeout)]; every call in the source gives a
    timeout. *)
Definition wait_for_server_exit (timeout : timedelta) : M bool :=
  sp <- ask server_process ;;
  match sp with
  | None => ret true
  | Some _ =>
      try_except
        (proc_wait timeout ;;
         log INFO "Server process exited" [] ;;
         ret true)
        (fun x =>
           match x with
           | TimeoutExpired =>
               Some (log WARNING "Server did not exit within timeout period" [] ;;
                     ret false)
           | _ =>
               except_Exception (fun x =>
                 log ERROR "Error waiting for server exit: {e}" [AExn x] ;;
                 ret false) x
           end)
  end.

(** ** Announcement planner *)

Definition get_seconds_before (interval : Interval) : Z :=
  match seconds_before interval, minutes_before interval with
  | Some s, _ => s
  | None, Some m => m * 60
  | None, None => 0
  end.

(** The first half of the loop body of [schedule_announcements]: the fire
    time and the message of a rule, [None] for the rule that is skipped. *)
Definition render (e : Env) (reboot_time : datetime) (interval : Interval)
  : result (option (datetime * string)) :=
  match seconds_before interval, minutes_before interval with
  | Some seconds_before, _ =>
      let announcement_time := reboot_time - timedelta_seconds seconds_before in
      if contains "{seconds}" (message interval) then
        match format (format_other e) "seconds" seconds_before (message interval) with
        | Ok message => Ok (Some (announcement_time, message))
        | Raise x => Raise x
        end
      else Ok (Some (announcement_time, message interval))
  | None, Some minutes_before =>
      let announcement_time := reboot_time - timedelta_minutes minutes_before in
      if contains "{minutes}" (message interval) then
        match format (format_other e) "minutes" minutes_before (message interval) with
        | Ok message => Ok (Some (announcement_time, message))
        | Raise x => Raise x
        end
      else Ok (Some (announcement_time, message interval))
  | None, None => Ok None
  end.

Definition announcement (message : string) : string :=
  "announcement " ++ dquote ++ message ++ dquote.

(** The loop body of [schedule_announcements]. *)
Definition announce (reboot_time now : datetime) (interval : Interval) : M unit :=
  e <- ask env ;;
  r <- lift (render e reboot_time interval) ;;
  match r with
  | None => ret tt
  | Some (announcement_time, message) =>
      if now <? announcement_time then
        timer_start (announcement_time - now) (announcement message) ;;
        log INFO "Scheduled announcement for {announcement_time}: {message}"
            [ATime announcement_time; AStr message]
      else ret tt
  end.

(** [schedule_announcements] from the sort on, given [now] and
    [config["announcement_intervals"]]. *)
Definition plan (reboot_time now : datetime) (intervals : list Interval) : M unit :=
  let announcement_intervals := sorted_reverse get_seconds_before intervals in
  for_each announcement_intervals (announce reboot_time now).

Definition schedule_announcements (reboot_time : datetime) : M unit :=
  now <- ask clock ;;
  cfg <- ask config ;;
  plan reboot_time now (announcement_intervals cfg).

(** ** Supervisor loop *)

(** [stop()] *)
Definition stop : M unit :=
  modify (set_running false) ;;
  alive <- is_alive ;;
  (if alive then
     log INFO "Stopping server..." [] ;;
     send_command "exit" ;;
     wait_for_server_exit (timedelta_seconds 30) ;;
     still <- is_alive ;;
     if still then proc_terminate else ret tt
   else ret tt) ;;
  thread <- ask reboot_thread ;;
  (if thread then thread_join (timedelta_seconds 10) else ret tt) ;;
  log INFO "Auto reboot tool stopped" [].

(** The stop sequence of a scheduled reboot: the statements of
    [reboot_cycle] from [Send exit command] to the forced kill. *)
Definition scheduled_stop : M unit :=
  log INFO "Sending exit command to server" [] ;;
  send_command "exit" ;;
  wait_for_server_exit (timedelta_seconds 60) ;;
  alive <- is_alive ;;
  if alive then
    log WARNING "Server did not exit gracefully, terminating..." [] ;;
    proc_terminate ;;
    sleep (timedelta_seconds 5) ;;
    p <- the_process ;;
    t <- ask clock ;;
    match poll p t with
    | None => proc_kill
    | Some _ => ret tt
    end
  else ret tt.

(** How an iteration of [while self.running] ends: by reaching the end of
    the body or by [continue]. *)
Inductive flow : Type := Next | Continue.

(** The [try] block of the loop body. *)
Definition cycle : M flow :=
  alive <- is_alive ;;
  started <- (if negb alive then start_server else ret true) ;;
  if negb started then
    log ERROR "Failed to start server, retrying in 60 seconds..." [] ;;
    sleep (timedelta_seconds 60) ;;
    ret Continue
  else
    now <- ask clock ;;
    cfg <- ask config ;;
    next_reboot <- lift (get_next_reboot_time now (reboot_schedule cfg)) ;;
    match next_reboot with
    | None =>
        log WARNING "No reboot schedule configured, sleeping for 1 hour" [] ;;
        sleep (timedelta_seconds 3600) ;;
        ret Continue
    | Some next_reboot =>
        log INFO "Next reboot scheduled for: {next_reboot}" [ATime next_reboot] ;;
        schedule_announcements next_reboot ;;
        now <- ask clock ;;
        let wait_seconds := next_reboot - now in
        (if 0 <? wait_seconds then
           log INFO "Waiting {wait_seconds:.0f} seconds until reboot time..."
               [AInt wait_seconds] ;;
           sleep wait_seconds
         else ret tt) ;;
        scheduled_stop ;;
        let restart_delay := restart_delay_seconds cfg in
        log INFO "Waiting {restart_delay} seconds before restart..."
            [AInt restart_delay] ;;
        sleep (timedelta_seconds restart_delay) ;;
        modify (set_server_process None) ;;
        ret Next
    end.

(** One iteration of the loop: the [try] block and the clause
    [except Exception].  The clause [except KeyboardInterrupt], the only
    place with a [break], has nothing to catch in the control thread. *)
Definition iteration : M flow :=
  try_except cycle
    (except_Exception (fun x =>
       log ERROR "Error in reboot cycle: {e}" [AExn x] ;;
       sleep (timedelta_seconds 60) ;;
       ret Next)).

(** [while self.running: ...], run for at most [fuel] iterations.  The
    result is [true] when the loop has ended and [false] when it is still
    going after [fuel] iterations. *)
Fixpoint supervise (fuel : nat) : M bool :=
  match fuel with
  | O => r <- ask running ;; ret (negb r)
  | S fuel' =>
      r <- ask running ;;
      if r then
        iteration ;;
        supervise fuel'
      else ret true
  end.

Definition reboot_cycle (fuel : nat) : M bool :=
  log INFO "Auto reboot tool started" [] ;;
  supervise fuel.

(** [start()]; the thread it starts runs [reboot_cycle] beside the caller. *)
Definition start : M unit :=
  r <- ask running ;;
  if r then log WARNING "Tool is already running" []
  else
    modify (set_running true) ;;
    modify (set_reboot_thread true) ;;
    perform ThreadStart ;;
    log INFO "Auto reboot tool thread started" [].

(** ** Vocabulary of the statements *)

Definition emits (es : list event) (w : World) : World :=
  fold_left (fun w e => emit e w) es w.

(** The events a computation adds to the trace of [w]. *)
Definition added (w w' : World) : list event :=
  skipn (List.length (trace w)) (trace w').

Definition is_log (e : event) : bool :=
  match e with
  | Log _ _ _ => true
  | _ => false
  end.

(** The actions on the outside among the events, log records left out. *)
Definition actions (es : list event) : list event :=
  filter (fun e => negb (is_log e)) es.

(** A child that is running and goes away only when killed: it has not
    ended, and it ignores both the [exit] line and a terminate request. *)
Definition never_exits_voluntarily (p : Popen) : Prop :=
  ends p = None /\ exit_delay p = None /\ term_delay p = None.

(** [send_command] has no pipe to write to: no child is attached, the child
    has no stdin pipe, the pipe is closed, or the child behind it is gone. *)
Definition cannot_send (w : World) : Prop :=
  match server_process w with
  | None => True
  | Some p =>
      stdin p = None \/ stdin p = Some PipeClosed \/ poll p (clock w) <> None
  end.

Definition has_offset (interval : Interval) : bool :=
  match seconds_before interval, minutes_before interval with
  | None, None => false
  | _, _ => true
  end.

(** The fire time of a rule: the reboot time minus its offset. *)
Definition fire_time (reboot_time : datetime) (interval : Interval) : option datetime :=
  match seconds_before interval, minutes_before interval with
  | Some s, _ => Some (reboot_time - timedelta_seconds s)
  | None, Some m => Some (reboot_time - timedelta_minutes m)
  | None, None => None
  end.


(** The entry is one the loop of [get_next_reboot_time] takes: it has no
    [enabled] key, or the value of the key is true in Python's sense. *)
Definition taken (s : ScheduleEntry) : Prop :=
  enabled s = None \/ exists v, enabled s = Some v /\ truthy v = true.

(** The values Python counts as false. *)
Definition falsy (v : json) : Prop :=
  v = JNull \/ v = JBool false \/ v = JInt 0
  \/ (exists f, v = JFloat f /\ PrimFloat.eqb f PrimFloat.zero = true)
  \/ v = JStr EmptyString \/ v = JArr [] \/ v = JObj [].

(** ** Sample surroundings *)

(** An environment in which every path exists, every launch yields a
    child that exits with code 1 one second later, and the control thread
    is always an hour from its end. *)
Definition sample_env : Env :=
  {| path_exists := fun _ => Ok true;
     path_name := fun p => p;
     path_parent := fun _ => "/srv/intersect";
     path_join := fun a b => a ++ "/" ++ b;
     path_resolve := fun p => Ok p;
     win32 := false;
     spawn := fun _ _ _ _ =>
       Ok {| spec_pid := 4242;
             spec_lifetime := Some (timedelta_seconds 1, 1);
             spec_exit_delay := None;
             spec_term_delay := None |};
     glob_logs := fun _ => Ok [];
     readlines := fun _ => Ok [];
     format_other := fun _ _ => Raise ValueError;
     thread_runs_for := fun _ => timedelta_seconds 3600 |}.

Definition sample_config (intervals : list Interval) : Config :=
  {| server_path := "/srv/intersect/server";
     server_args := [];
     reboot_schedule := [{| hour := 4; minute := 0; enabled := None |}];
     announcement_intervals := intervals;
     restart_delay_seconds := 10 |}.

(** A child that ignores the [exit] line and a terminate request. *)
Definition stubborn_child : Popen :=
  {| pid := 4242; stdin := Some PipeOpen; ends := None;
     exit_delay := None; term_delay := None |}.

(** The tool as an outside caller finds it at instant [now], the control
    thread started. *)
Definition sample_world (intervals : list Interval) (sp : option Popen)
           (now : datetime) : World :=
  {| config := sample_config intervals;
     config_path := "reboot_config.json";
     server_process := sp;
     running := true;
     reboot_thread := true;
     env := sample_env;
     in_reboot_thread := false;
     clock := now;
     launches := 0;
     trace := [] |}.

Definition set_trace (es : list event) (w : World) : World :=
  {| config := config w; config_path := config_path w;
     server_process := server_process w; running := running w;
     reboot_thread := reboot_thread w; env := env w;
     in_reboot_thread := in_reboot_thread w; clock := clock w;
     launches := launches w; trace := es |}.

(** Every launch yields a child that exits on its own within the grace
    period of [start_server]. *)
Definition launches_fail_fast (e : Env) : Prop :=
  forall n cmd cwd shell,
  exists c d code,
    spawn e n cmd cwd shell = Ok c
    /\ spec_lifetime c = Some (d, code)
    /\ d <= timedelta_seconds 3.

(** The executable is where the configuration says. *)
Definition executable_found (w : World) : Prop :=
  path_exists (env w) (server_path (config w)) = Ok true
  /\ exists resolved, path_resolve (env w) (server_path (config w)) = Ok resolved.

(** The state in which the loop finds itself when starts keep failing: it
    is running, no live child is attached, the executable is found and every
    launch fails fast. *)
Definition start_keeps_failing (w : World) : Prop :=
  running w = true
  /\ fst (is_alive w) = Ok false
  /\ executable_found w
  /\ launches_fail_fast (env w).

(** The fire time of the rule has passed at [now]. *)
Definition missed (reboot_time now : datetime) (interval : Interval) : bool :=
  match fire_time reboot_time interval with
  | Some t => t <=? now
  | None => false
  end.

(** The rule of the rendering scenario. *)
Definition ten_minutes_rule : Interval :=
  {| seconds_before := None;
     minutes_before := Some 10;
     message := "Reboot in {minutes} minutes" |}.

(** ** Configuration file *)

(** How [load_config] ends when it does not return the configuration, with
    what the message of the exception interpolates. *)
Inductive load_error : Type :=
| ExistsRaised (e : exn)           (* what [self.config_path.exists()] raised *)
| ConfigNotFound (path : string)   (* [FileNotFoundError]: Config file not found *)
| LoadRaised (e : exn)             (* what [open] or [json.load] raised *)
| MissingField (field : string)    (* [ValueError]: Missing required config field *)
| NotIterable.                     (* [TypeError]: [in] on a number, a boolean or [None] *)

Definition required_fields : list string :=
  ["server_path"; "reboot_schedule"; "announcement_intervals";
   "restart_delay_seconds"].

Definition is_string (field : string) (j : json) : bool :=
  match j with
  | JStr s => (field =? s)%string
  | _ => false
  end.

(** [field in config]: a key of a dict, an element of a list, a substring of
    a string; [None] where Python raises [TypeError]. *)
Definition py_in (field : string) (config : json) : option bool :=
  match config with
  | JObj members => Some (existsb (String.eqb field) (map fst members))
  | JArr items => Some (existsb (is_string field) items)
  | JStr s => Some (contains field s)
  | JNull | JBool _ | JInt _ | JFloat _ => None
  end.

(** The loop [for field in required_fields] of [load_config]. *)
Fixpoint validate (fields : list string) (config : json) : load_error + json :=
  match fields with
  | [] => inr config
  | field :: rest =>
      match py_in field config with
      | None => inl NotIterable
      | Some false => inl (MissingField field)
      | Some true => validate rest config
      end
  end.

(** [load_config], given what [self.config_path.exists()] yields and what
    opening and parsing the file yields. *)
Definition load_config (config_path : string) (file_exists : result bool)
           (loaded : result json) : load_error + json :=
  match file_exists with
  | Raise e => inl (ExistsRaised e)
  | Ok false => inl (ConfigNotFound config_path)
  | Ok true =>
      match loaded with
      | Raise e => inl (LoadRaised e)
      | Ok config => validate required_fields config
      end
  end.

(** ** Vocabulary of the statements, continued *)

(** What [datetime.replace] raises for an entry it does not take. *)
Definition rejection (s : ScheduleEntry) : exn :=
  if fits_c_int (hour s) && fits_c_int (minute s) then ValueError
  else OverflowError.

(** The child once the [exit] line has been sent to it at [t]: it has
    received the line if its pipe is open, and goes away [exit_delay] later
    if it heeds it. *)
Definition told_to_exit (t : datetime) (p : Popen) : Popen :=
  match stdin p, exit_delay p with
  | Some PipeOpen, Some d => end_by (t + d) 0 p
  | _, _ => p
  end.

(** The two tiers of [stop] as the amended claim words them: for a child
    that is running, the exit line, a wait of 30 seconds and, if the child
    is still running then, a terminate request. *)
Definition two_tier_stop (w : World) : list event :=
  match server_process w with
  | Some p =>
      match poll p (clock w) with
      | Some _ => []
      | None =>
          (match stdin p with
           | Some PipeOpen =>
               [StdinWrite (pid p) ("exit" ++ nl); StdinFlush (pid p)]
           | _ => []
           end
           ++ [Wait (pid p) (timedelta_seconds 30)]
           ++ match poll (told_to_exit (clock w) p)
                         (clock w + timedelta_seconds 30) with
              | None => [Terminate (pid p)]
              | Some _ => []
              end)%list
      end
  | None => []
  end.

(** The hour and the minute of the entry are ones [datetime.replace] takes. *)
Definition in_range (s : ScheduleEntry) : bool :=
  (0 <=? hour s) && (hour s <=? 23) && (0 <=? minute s) && (minute s <=? 59).


(** The first entry of the schedule that the loop takes and
    [datetime.replace] does not. *)
Definition first_rejected (schedule : list ScheduleEntry) : option ScheduleEntry :=
  find (fun s => get_enabled s && negb (in_range s)) schedule.

(** The computation leaves the observation [f] of the world as it was. *)
Definition preserves {A X : Type} (f : World -> X) (m : M A) : Prop :=
  forall w, f (snd (m w)) = f w.

(** The observation [f] does not depend on the parts of the world that a
    turn of the loop writes: the trace, the clock, the process handle and
    the count of launches. *)
Definition loop_invariant {X : Type} (f : World -> X) : Prop :=
  (forall e w, f (emit e w) = f w)
  /\ (forall t w, f (set_clock t w) = f w)
  /\ (forall sp w, f (set_server_process sp w) = f w)
  /\ (forall n w, f (set_launches n w) = f w).

(** The delays of the timers among the events, in order. *)
Fixpoint timer_delays (es : list event) : list timedelta :=
  match es with
  | [] => []
  | TimerStart d _ :: rest => d :: timer_delays rest
  | _ :: rest => timer_delays rest
  end.

Definition timer_or_log (e : event) : bool :=
  match e with
  | TimerStart _ _ | Log INFO _ _ => true
  | _ => false
  end.

Fixpoint ascending (l : list Z) : Prop :=
  match l with
  | [] => True
  | x :: l' => Forall (fun y => x <= y) l' /\ ascending l'
  end.

(** An action on the child process. *)
Definition touches_child (e : event) : bool :=
  match e with
  | StdinWrite _ _ | StdinFlush _ | Wait _ _ | Terminate _ | Kill _ => true
  | _ => false
  end.

(** * Properties *)

(** ** Tactics *)

(** Decide the comparisons left in a goal by arithmetic. *)
Ltac decide_comparisons :=
  repeat match goal with
         | |- context [?a <=? ?b] => destruct (Z.leb_spec a b); try lia
         | |- context [?a <? ?b] => destruct (Z.ltb_spec a b); try lia
         end.

(** Unfold the monadic operations of a goal down to the worlds. *)
Ltac run :=
  cbv [bind ret raise ask modify lift perform log try_except except_Exception
       the_process is_alive sleep stdin_write stdin_flush proc_wait
       proc_terminate proc_kill timer_start thread_join poll end_by end_at
       server_process clock trace running reboot_thread in_reboot_thread
       config config_path env launches emit set_clock set_server_process
       set_running set_reboot_thread set_launches
       pid stdin ends exit_delay term_delay
       spec_pid spec_lifetime spec_exit_delay spec_term_delay].

(** Turn the comparisons among the hypotheses into inequalities. *)
Ltac reflect_comparisons :=
  repeat match goal with
         | H : (_ <=? _) = true |- _ => apply Z.leb_le in H
         | H : (_ <=? _) = false |- _ => apply Z.leb_gt in H
         | H : (_ <? _) = true |- _ => apply Z.ltb_lt in H
         | H : (_ <? _) = false |- _ => apply Z.ltb_ge in H
         end.

(** Close a leaf of a case split on comparisons: contradictory cases by
    arithmetic, the others part by part. *)
Ltac close_case :=
  try discriminate;
  repeat match goal with
         | H : (if ?c then _ else _) = _ |- _ => destruct c eqn:?; try discriminate
         end;
  reflect_comparisons;
  repeat match goal with
         | |- context [?a <=? ?b] => destruct (Z.leb_spec a b); try lia
         end;
  repeat split; try lia; try (exfalso; lia).


(** Split on the conditions left in a goal, running each branch. *)
Ltac split_cases :=
  repeat match goal with
         | |- context [if ?c then _ else _] => destruct c eqn:?; run
         end.

(** ** Schedule calculator *)

Section Calculator.
Variable now : datetime.

Lemma midnight_bounds : midnight now <= now < midnight now + us_per_day.
Proof.
  unfold midnight, us_per_day, us_per_second.
  pose proof (Z.div_mod now (86400 * 1000000) ltac:(lia)) as E.
  pose proof (Z.mod_pos_bound now (86400 * 1000000) ltac:(lia)) as B.
  lia.
Qed.

Lemma replace_well_formed (s : ScheduleEntry) :
  well_formed s ->
  replace now (hour s) (minute s)
  = Ok (midnight now + (hour s * 3600 + minute s * 60) * us_per_second).
Proof.
  intros [[H1 H2] [H3 H4]]. unfold replace, fits_c_int.
  assert (F : forall v, 0 <= v <= 59 ->
                        ((- 2 ^ 31 <=? v) && (v <? 2 ^ 31)) = true).
  { intros v Hv. apply andb_true_intro. split; [apply Z.leb_le|apply Z.ltb_lt]; lia. }
  rewrite (F (hour s)), (F (minute s)) by lia. cbn [andb negb].
  apply Z.leb_le in H1, H2, H3, H4. now rewrite H1, H2, H3, H4.
Qed.

Lemma candidate_future (s : ScheduleEntry) :
  well_formed s -> now < candidate now s.
Proof.
  intros [Hh Hm]. unfold candidate. cbv zeta.
  pose proof midnight_bounds as B.
  destruct (Z.leb_spec (midnight now + (hour s * 3600 + minute s * 60) * us_per_second) now);
    unfold us_per_day, us_per_second in *; lia.
Qed.

(** The loop appends the candidates of the enabled entries, in order. *)
Lemma collect_reboot_times_spec (schedule : list ScheduleEntry) :
  forall acc,
    Forall well_formed (enabled_entries schedule) ->
    collect_reboot_times now schedule acc
    = Ok (acc ++ map (candidate now) (enabled_entries schedule))%list.
Proof.
  induction schedule as [|s rest IH]; intros acc Hwf; simpl.
  - now rewrite app_nil_r.
  - unfold enabled_entries in *. simpl in Hwf.
    destruct (get_enabled s) eqn:En; simpl.
    + inversion Hwf as [|? ? Hs Hrest]; subst.
      rewrite (replace_well_formed s Hs), IH by assumption.
      rewrite <- app_assoc. reflexivity.
    + now apply IH.
Qed.

(** Without well-formedness the loop still returns no time only when no
    entry is enabled. *)
Lemma collect_reboot_times_grows (schedule : list ScheduleEntry) :
  forall acc l,
    collect_reboot_times now schedule acc = Ok l ->
    (List.length acc + List.length (enabled_entries schedule) = List.length l)%nat.
Proof.
  induction schedule as [|s rest IH]; intros acc l H; simpl in *.
  - inversion H; subst. lia.
  - unfold enabled_entries in *. simpl.
    destruct (get_enabled s); simpl in *.
    + destruct (replace now (hour s) (minute s)); [|discriminate].
      apply IH in H. rewrite length_app in H. simpl in H. lia.
    + now apply IH.
Qed.
End Calculator.

Lemma py_min_is_minimum (t : Z) (ts : list Z) : is_minimum (py_min t ts) (t :: ts).
Proof.
  unfold py_min. revert t.
  induction ts as [|y ts IH]; intros t; simpl.
  - split; [now left|]. intros c [<-|[]]. lia.
  - destruct (Z.ltb_spec y t) as [L|L].
    + destruct (IH y) as [Hin Hle]. split.
      * destruct Hin as [<-|Hin]; [right; now left|right; now right].
      * intros c [<-|[<-|Hc]].
        -- specialize (Hle y (or_introl eq_refl)). lia.
        -- apply Hle. now left.
        -- apply Hle. now right.
    + destruct (IH t) as [Hin Hle]. split.
      * destruct Hin as [<-|Hin]; [now left|right; now right].
      * intros c [<-|[<-|Hc]].
        -- apply Hle. now left.
        -- specialize (Hle t (or_introl eq_refl)). lia.
        -- apply Hle. now right.
Qed.

Lemma midnight_at_clock (d hh mm ss : Z) :
  0 <= hh * 3600 + mm * 60 + ss < 86400 ->
  midnight (at_clock d hh mm ss) = d * us_per_day.
Proof.
  intros B. unfold midnight, at_clock. f_equal.
  symmetry. apply Z.div_unique with ((hh * 3600 + mm * 60 + ss) * us_per_second).
  - left. unfold us_per_day, us_per_second. lia.
  - lia.
Qed.

Lemma get_next_reboot_time_spec (now : datetime) (schedule : list ScheduleEntry) :
  Forall well_formed (enabled_entries schedule) ->
  get_next_reboot_time now schedule
  = match map (candidate now) (enabled_entries schedule) with
    | [] => Ok None
    | t :: ts => Ok (Some (py_min t ts))
    end.
Proof.
  intros Hwf. unfold get_next_reboot_time.
  now rewrite collect_reboot_times_spec.
Qed.

Lemma replace_ok_well_formed (now : datetime) (s : ScheduleEntry) (t : datetime) :
  replace now (hour s) (minute s) = Ok t -> well_formed s.
Proof.
  unfold replace, well_formed.
  destruct (negb (fits_c_int (hour s) && fits_c_int (minute s))); [discriminate|].
  destruct (0 <=? hour s) eqn:A; destruct (hour s <=? 23) eqn:B;
    destruct (0 <=? minute s) eqn:C; destruct (minute s <=? 59) eqn:D;
    simpl; try discriminate.
  intros _. apply Z.leb_le in A, B, C, D. lia.
Qed.

Lemma collect_ok_well_formed (now : datetime) (schedule : list ScheduleEntry) :
  forall acc l,
    collect_reboot_times now schedule acc = Ok l ->
    Forall well_formed (enabled_entries schedule).
Proof.
  induction schedule as [|s rest IH]; intros acc l H; simpl in *.
  - constructor.
  - unfold enabled_entries in *. simpl.
    destruct (get_enabled s); simpl in *.
    + destruct (replace now (hour s) (minute s)) eqn:R; [|discriminate].
      constructor; [now apply replace_ok_well_formed in R | now apply IH in H].
    + now apply IH in H.
Qed.

Lemma get_next_reboot_time_none (now : datetime) (schedule : list ScheduleEntry) :
  get_next_reboot_time now schedule = Ok None <-> enabled_entries schedule = [].
Proof.
  unfold get_next_reboot_time. split.
  - destruct (collect_reboot_times now schedule []) as [l|e] eqn:C; [|discriminate].
    destruct l; [|discriminate]. intros _.
    apply collect_reboot_times_grows in C. simpl in C.
    now destruct (enabled_entries schedule).
  - intros E. rewrite collect_reboot_times_spec by (rewrite E; constructor).
    now rewrite E.
Qed.

(** An entry whose [enabled] value is false in Python's sense is passed
    over, in range or not. *)
Lemma collect_skips (now : datetime) (before : list ScheduleEntry)
      (s : ScheduleEntry) (after : list ScheduleEntry) :
  get_enabled s = false ->
  forall acc,
    collect_reboot_times now (before ++ s :: after) acc
    = collect_reboot_times now (before ++ after) acc.
Proof.
  intros Hs. induction before as [|x before IH]; intros acc; simpl.
  - now rewrite Hs.
  - destruct (get_enabled x); simpl; [|apply IH].
    destruct (replace now (hour x) (minute x)); [apply IH|reflexivity].
Qed.

Lemma taken_get_enabled (s : ScheduleEntry) : taken s -> get_enabled s = true.
Proof.
  unfold get_enabled. intros [E|[v [E T]]]; now rewrite E.
Qed.

Lemma truthy_falsy (v : json) : truthy v = false <-> falsy v.
Proof.
  unfold falsy. split.
  - destruct v as [|[|]|z|f|s|[|x l]|[|x l]]; simpl; intros H;
      try discriminate; auto 10.
    + apply negb_false_iff, Z.eqb_eq in H. subst. auto 10.
    + apply negb_false_iff in H. right. right. right. left. eauto.
    + destruct s; [auto 10|discriminate].
  - intros [->|[->|[->|[[f [-> F]]|[->|[->| ->]]]]]]; simpl;
      try reflexivity. now rewrite F.
Qed.

Lemma get_next_reboot_time_minimum (now : datetime) (schedule : list ScheduleEntry) :
  Forall well_formed (enabled_entries schedule) ->
  match get_next_reboot_time now schedule with
  | Ok (Some t) => is_minimum t (map (candidate now) (enabled_entries schedule))
  | Ok None => enabled_entries schedule = []
  | Raise _ => False
  end.
Proof.
  intros Hwf.
  rewrite get_next_reboot_time_spec by assumption.
  destruct (enabled_entries schedule) as [|s ss]; [reflexivity|].
  simpl. apply (py_min_is_minimum (candidate now s) (map (candidate now) ss)).
Qed.

(** C2: with at least one enabled entry, get_next_reboot_time returns an
    instant strictly after now, whatever now is; with the single entry
    04:00 and now = 04:00:01 of day d it returns 04:00:00 of day d + 1. *)
Theorem next_reboot_strictly_after_now :
  (forall now schedule,
      Forall well_formed (enabled_entries schedule) ->
      enabled_entries schedule <> [] ->
      exists t, get_next_reboot_time now schedule = Ok (Some t) /\ now < t)
  /\ (forall d,
         get_next_reboot_time (at_clock d 4 0 1)
           [{| hour := 4; minute := 0; enabled := Some (JBool true) |}]
         = Ok (Some (at_clock (d + 1) 4 0 0))).
Proof.
  split.
  - intros now schedule Hwf Hne.
    rewrite get_next_reboot_time_spec by assumption.
    destruct (enabled_entries schedule) as [|s ss] eqn:E; [contradiction|].
    simpl. eexists. split; [reflexivity|].
    destruct (py_min_is_minimum (candidate now s) (map (candidate now) ss)) as [Hin _].
    change (In (py_min (candidate now s) (map (candidate now) ss))
               (map (candidate now) (s :: ss))) in Hin.
    apply in_map_iff in Hin. destruct Hin as [x [<- Hx]].
    apply candidate_future.
    rewrite Forall_forall in Hwf. now apply Hwf.
  - intros d. unfold get_next_reboot_time, collect_reboot_times, replace. simpl.
    rewrite midnight_at_clock by lia.
    unfold at_clock, timedelta_days, py_min, us_per_day, us_per_second. simpl.
    decide_comparisons. do 2 f_equal. lia.
Qed.

Lemma next_reboot_strictly_after_now_witness :
  exists t,
    get_next_reboot_time 1234567
      [{| hour := 0; minute := 0; enabled := Some (JBool false) |};
       {| hour := 23; minute := 59; enabled := None |}] = Ok (Some t)
    /\ 1234567 < t.
Proof.
  apply (proj1 next_reboot_strictly_after_now).
  - repeat constructor; simpl; lia.
  - simpl. discriminate.
Defined.



(** C10, as the code has it: an entry without the enabled key counts as
    enabled: alone it yields its own instant, and in a schedule it is among
    the entries the result is the minimum over, as is every entry whose
    enabled value is true in Python's sense.  An entry is passed over
    exactly when its enabled value is false in that sense, which null, zero
    and the empty string, list and object are as well as false. *)
Theorem omitted_enabled_counts_as_enabled :
  (forall now s,
      enabled s = None -> well_formed s ->
      get_next_reboot_time now [s] = Ok (Some (candidate now s)))
  /\ (forall now schedule s,
         In s schedule -> taken s ->
         Forall well_formed (enabled_entries schedule) ->
         exists t,
           get_next_reboot_time now schedule = Ok (Some t)
           /\ now < t /\ t <= candidate now s)
  /\ (forall now before s after v,
         enabled s = Some v -> truthy v = false ->
         get_next_reboot_time now (before ++ s :: after)
         = get_next_reboot_time now (before ++ after))
  /\ (forall v, truthy v = false <-> falsy v).
Proof.
  split; [|split; [|split]].
  - intros now s E W.
    rewrite get_next_reboot_time_spec.
    + unfold enabled_entries, get_enabled. cbn [filter]. now rewrite E.
    + unfold enabled_entries, get_enabled. cbn [filter]. rewrite E.
      now constructor.
  - intros now schedule s Hin Ht Hwf.
    assert (Hs : In s (enabled_entries schedule)).
    { unfold enabled_entries. apply filter_In. split; [assumption|].
      now apply taken_get_enabled. }
    pose proof (get_next_reboot_time_minimum now schedule Hwf) as Hm.
    destruct (get_next_reboot_time now schedule) as [[t|]|e].
    + exists t. split; [reflexivity|]. destruct Hm as [Ht' Hle]. split.
      * apply in_map_iff in Ht'. destruct Ht' as [x [<- Hx]].
        apply candidate_future. rewrite Forall_forall in Hwf. now apply Hwf.
      * apply Hle. now apply in_map.
    + rewrite Hm in Hs. destruct Hs.
    + contradiction.
  - intros now before s after v E T. unfold get_next_reboot_time.
    rewrite collect_skips; [reflexivity|].
    unfold get_enabled. now rewrite E.
  - apply truthy_falsy.
Qed.

Lemma omitted_enabled_counts_as_enabled_witness :
  get_next_reboot_time (at_clock 0 12 0 0)
    [{| hour := 7; minute := 30; enabled := None |}]
  = Ok (Some (candidate (at_clock 0 12 0 0)
                {| hour := 7; minute := 30; enabled := None |})).
Proof.
  apply (proj1 omitted_enabled_counts_as_enabled).
  - reflexivity.
  - unfold well_formed. simpl. lia.
Defined.

(** C10 as stated fails: an entry whose enabled value is null, or zero, is
    passed over although the value is not false. *)
Lemma falsy_enabled_is_passed_over :
  get_next_reboot_time (at_clock 0 0 0 0)
    [{| hour := 4; minute := 0; enabled := Some JNull |}] = Ok None
  /\ get_next_reboot_time (at_clock 0 0 0 0)
       [{| hour := 4; minute := 0; enabled := Some (JInt 0) |}] = Ok None
  /\ JNull <> JBool false
  /\ JInt 0 <> JBool false.
Proof.
  repeat split; discriminate.
Qed.

(** ** Process controller *)

Lemma sleep_nonneg (d : timedelta) :
  0 <= d <= timedelta_seconds 9223372036 ->
  sleep d = (perform (Sleep d) ;; modify (fun w => set_clock (clock w + d) w)).
Proof.
  intros H. unfold sleep, fits_c_time.
  unfold timedelta_seconds, us_per_second in H.
  assert (A : (- 2 ^ 63 <=? d * 1000) = true) by (apply Z.leb_le; lia).
  assert (B : (d * 1000 <=? 2 ^ 63 - 1) = true) by (apply Z.leb_le; lia).
  rewrite A, B. cbn [andb negb].
  destruct (Z.ltb_spec d 0); [lia|reflexivity].
Qed.

Lemma timedelta_seconds_nonneg (s : Z) :
  0 <= s <= 9223372036 ->
  0 <= timedelta_seconds s <= timedelta_seconds 9223372036.
Proof. unfold timedelta_seconds, us_per_second. lia. Qed.

Lemma added_app (w w' : World) (es : list event) :
  trace w' = (trace w ++ es)%list -> added w w' = es.
Proof.
  intros E. unfold added. rewrite E.
  generalize (trace w) as l. induction l as [|x l IH]; simpl; auto.
Qed.

Lemma trace_emits (es : list event) :
  forall w, trace (emits es w) = (trace w ++ es)%list.
Proof.
  induction es as [|e es IH]; intros w; simpl.
  - now rewrite app_nil_r.
  - rewrite IH. simpl. now rewrite <- app_assoc.
Qed.

(** C5: send_command never raises, and when there is no child, no stdin
    pipe, a closed pipe or a child that is gone it returns failure after
    writing nothing, the last thing it does being an ERROR log record. *)
Theorem send_command_fails_softly (w : World) (command : string) :
  (exists b w', send_command command w = (Ok b, w'))
  /\ (cannot_send w ->
      exists es msg args,
        send_command command w = (Ok false, emits (es ++ [Log ERROR msg args]) w)
        /\ actions es = []).
Proof.
  unfold cannot_send, send_command.
  destruct w as [cfg cp sp r th e me t n tr]. run.
  destruct sp as [[p [[|]|] en ed td]|]; run.
  - destruct en as [[t_end code]|].
    + destruct (t_end <=? t) eqn:L.
      * split; [eauto|]. intros _.
        exists [Log INFO "Sending command: {command}" [AStr command]].
        do 2 eexists. split; reflexivity.
      * split.
        -- destruct ed as [d|]; run; [|eauto].
           split_cases; eauto.
        -- intros [H|[H|H]]; congruence.
    + split.
      * destruct ed as [d|]; run; [|eauto].
        split_cases; eauto.
      * intros [H|[H|H]]; congruence.
  - split; [eauto|]. intros _.
    exists [Log INFO "Sending command: {command}" [AStr command]].
    do 2 eexists. split; reflexivity.
  - split; [eauto|]. intros _. exists []. do 2 eexists. split; reflexivity.
  - split; [eauto|]. intros _. exists []. do 2 eexists. split; reflexivity.
Qed.

Lemma send_command_fails_softly_witness :
  exists es msg args,
    send_command "announcement"
      (sample_world [] (Some (end_at 5 0 stubborn_child)) 7)
    = (Ok false,
       emits (es ++ [Log ERROR msg args])
             (sample_world [] (Some (end_at 5 0 stubborn_child)) 7))
    /\ actions es = [].
Proof.
  apply (proj2 (send_command_fails_softly _ _)).
  simpl. right. right. discriminate.
Defined.

(** C1: for a running child with an open stdin pipe that never exits
    voluntarily, the scheduled stop sequence writes the exit line once, waits
    60 seconds, requests termination once, sleeps 5 seconds and kills the
    child, in this order and with nothing else done to the child. *)
Theorem scheduled_stop_escalates (w : World) (p : Popen) :
  server_process w = Some p ->
  stdin p = Some PipeOpen ->
  never_exits_voluntarily p ->
  exists w',
    scheduled_stop w = (Ok tt, w')
    /\ actions (added w w')
       = [StdinWrite (pid p) ("exit" ++ nl); StdinFlush (pid p);
          Wait (pid p) (timedelta_seconds 60);
          Terminate (pid p);
          Sleep (timedelta_seconds 5);
          Kill (pid p)]
    /\ added w w'
       = [Log INFO "Sending exit command to server" [];
          Log INFO "Sending command: {command}" [AStr "exit"];
          StdinWrite (pid p) ("exit" ++ nl); StdinFlush (pid p);
          Wait (pid p) (timedelta_seconds 60);
          Log WARNING "Server did not exit within timeout period" [];
          Log WARNING "Server did not exit gracefully, terminating..." [];
          Terminate (pid p);
          Sleep (timedelta_seconds 5);
          Kill (pid p)]
    /\ clock w' = clock w + timedelta_seconds 65.
Proof.
  intros Hsp Hin [Hen [Hed Htd]].
  destruct w as [cfg cp sp r th e me t n tr].
  destruct p as [i sin en ed td]. simpl in *. subst.
  unfold scheduled_stop, send_command, wait_for_server_exit.
  rewrite sleep_nonneg by (apply timedelta_seconds_nonneg; lia). run.
  eexists. split; [reflexivity|].
  erewrite added_app
    by (cbv [trace]; repeat rewrite <- app_assoc; reflexivity).
  split; [reflexivity|]. split; [reflexivity|].
  cbv [clock timedelta_seconds us_per_second]. lia.
Qed.

Lemma scheduled_stop_escalates_witness :
  exists w',
    scheduled_stop (sample_world [] (Some stubborn_child) 0) = (Ok tt, w')
    /\ actions (added (sample_world [] (Some stubborn_child) 0) w')
       = [StdinWrite 4242 ("exit" ++ nl); StdinFlush 4242;
          Wait 4242 (timedelta_seconds 60);
          Terminate 4242;
          Sleep (timedelta_seconds 5);
          Kill 4242].
Proof.
  destruct (scheduled_stop_escalates (sample_world [] (Some stubborn_child) 0)
              stubborn_child eq_refl eq_refl (conj eq_refl (conj eq_refl eq_refl)))
    as [w' [H1 [H2 _]]].
  exists w'. split; assumption.
Defined.

(** The later tiers are for the child that is still there: one that heeds
    the exit line within the minute is neither terminated nor killed. *)
Lemma scheduled_stop_cooperative (w : World) (p : Popen) (d : timedelta) :
  server_process w = Some p ->
  stdin p = Some PipeOpen ->
  ends p = None ->
  exit_delay p = Some d ->
  0 <= d <= timedelta_seconds 60 ->
  exists w',
    scheduled_stop w = (Ok tt, w')
    /\ actions (added w w')
       = [StdinWrite (pid p) ("exit" ++ nl); StdinFlush (pid p);
          Wait (pid p) (timedelta_seconds 60)]
    /\ clock w' = clock w + d.
Proof.
  intros Hsp Hin Hen Hed Hd.
  destruct w as [cfg cp sp r th e me t n tr].
  destruct p as [i sin en ed td]. cbv [server_process stdin ends exit_delay] in *. subst.
  unfold scheduled_stop, send_command, wait_for_server_exit.
  rewrite sleep_nonneg by (apply timedelta_seconds_nonneg; lia). run.
  change ("exit" ++ nl =? "exit" ++ nl)%string with true. run.
  replace (t + d <=? t + timedelta_seconds 60) with true
    by (symmetry; apply Z.leb_le; lia).
  run.
  replace (t + d <=? Z.max t (t + d)) with true
    by (symmetry; apply Z.leb_le; lia).
  eexists. split; [reflexivity|].
  erewrite added_app
    by (cbv [trace]; repeat rewrite <- app_assoc; reflexivity).
  split; [reflexivity|]. cbv [clock]. lia.
Qed.

(** What [stop] does in any state. *)
Lemma stop_outcome (w : World) :
  exists r w',
    stop w = (r, w')
    /\ running w' = false
    /\ (forall i, ~ In (Kill i) (added w w'))
    /\ (forall d, ~ In (Sleep d) (added w w'))
    /\ clock w <= clock w' <= clock w + timedelta_seconds 40
    /\ (in_reboot_thread w = false -> r = Ok tt)
    /\ (in_reboot_thread w = false ->
        actions (added w w')
        = (two_tier_stop w
           ++ if reboot_thread w then [Join (timedelta_seconds 10)] else [])%list)
    /\ (in_reboot_thread w = false ->
        fst (is_alive w) = Ok false ->
        actions (added w w')
        = if reboot_thread w then [Join (timedelta_seconds 10)] else []).
Proof.
  destruct w as [cfg cp sp r th e me t n tr].
  unfold stop, send_command, wait_for_server_exit, two_tier_stop, told_to_exit.
  assert (S30 : timedelta_seconds 30 = 30000000) by reflexivity.
  assert (S10 : timedelta_seconds 10 = 10000000) by reflexivity.
  assert (S40 : timedelta_seconds 40 = 40000000) by reflexivity.
  cbv [in_reboot_thread reboot_thread].
  destruct sp as [[i [[|]|] [[t_end code]|] [d|] [d'|]]|]; run; split_cases;
    try discriminate;
    (do 2 eexists; split; [reflexivity|]);
    (erewrite added_app
       by (cbv [trace]; repeat rewrite <- app_assoc;
           first [reflexivity | symmetry; apply app_nil_r]));
    cbv [is_alive server_process poll ends clock running fst];
    (split; [reflexivity|]);
    (split; [intros ? H; cbn in H; intuition discriminate|]);
    (split; [intros ? H; cbn in H; intuition discriminate|]);
    (split; [close_case|]);
    (split; [intros; (reflexivity || discriminate)|]);
    (split; [intros; try discriminate; cbn [actions filter is_log negb app]; close_case|]);
    intros; try reflexivity; try discriminate; close_case.
Qed.

(** [stop] on a child that heeds neither the exit line nor a terminate
    request. *)
Lemma stop_stubborn (w : World) (p : Popen) :
  in_reboot_thread w = false ->
  server_process w = Some p ->
  stdin p = Some PipeOpen ->
  never_exits_voluntarily p ->
  two_tier_stop w
  = [StdinWrite (pid p) ("exit" ++ nl); StdinFlush (pid p);
     Wait (pid p) (timedelta_seconds 30);
     Terminate (pid p)]
  /\ clock (snd (stop w))
     = clock w + timedelta_seconds 30
       + (if reboot_thread w
          then Z.max 0 (Z.min (timedelta_seconds 10)
                              (thread_runs_for (env w)
                                 (clock w + timedelta_seconds 30)))
          else 0)
  /\ fst (is_alive (snd (stop w))) = Ok true.
Proof.
  intros Hme Hsp Hin [Hen [Hed Htd]].
  destruct w as [cfg cp sp r th e me t n tr].
  destruct p as [i sin en ed td]. simpl in *. subst.
  split; [reflexivity|].
  unfold stop, send_command, wait_for_server_exit. run.
  destruct th; run; cbv [snd fst]; split; try reflexivity;
    cbv [timedelta_seconds us_per_second]; lia.
Qed.

(** C6, as the code has it: on a request from outside the control thread
    stop clears running and returns normally.  For a child that is running
    it writes the exit line, if the pipe is open, waits up to 30 seconds
    and requests termination if the child is still running then; it never
    kills.  It then joins the control thread, when there is one, for up to
    10 seconds, so that it returns within 40 seconds.  A child that heeds
    neither the exit line nor the terminate request gets all of this and is
    still running when stop returns. *)
Theorem stop_escalates_to_terminate (w : World) :
  in_reboot_thread w = false ->
  exists w',
    stop w = (Ok tt, w')
    /\ running w' = false
    /\ actions (added w w')
       = (two_tier_stop w
          ++ if reboot_thread w then [Join (timedelta_seconds 10)] else [])%list
    /\ (forall i, ~ In (Kill i) (added w w'))
    /\ clock w <= clock w' <= clock w + timedelta_seconds 40
    /\ (forall p,
          server_process w = Some p ->
          stdin p = Some PipeOpen ->
          never_exits_voluntarily p ->
          two_tier_stop w
          = [StdinWrite (pid p) ("exit" ++ nl); StdinFlush (pid p);
             Wait (pid p) (timedelta_seconds 30);
             Terminate (pid p)]
          /\ clock w'
             = clock w + timedelta_seconds 30
               + (if reboot_thread w
                  then Z.max 0 (Z.min (timedelta_seconds 10)
                                      (thread_runs_for (env w)
                                         (clock w + timedelta_seconds 30)))
                  else 0)
          /\ fst (is_alive w') = Ok true).
Proof.
  intros Hme.
  destruct (stop_outcome w) as [r [w' [E [H1 [H2 [_ [H4 [H5 [H6 _]]]]]]]]].
  rewrite (H5 Hme) in E. exists w'.
  repeat (split; [solve [auto]|]).
  intros p Hsp Hin Hp.
  pose proof (stop_stubborn w p Hme Hsp Hin Hp) as S.
  rewrite E in S. exact S.
Qed.

Lemma stop_escalates_to_terminate_witness :
  exists w',
    stop (sample_world [] (Some stubborn_child) 0) = (Ok tt, w')
    /\ running w' = false
    /\ actions (added (sample_world [] (Some stubborn_child) 0) w')
       = [StdinWrite 4242 ("exit" ++ nl); StdinFlush 4242;
          Wait 4242 (timedelta_seconds 30);
          Terminate 4242;
          Join (timedelta_seconds 10)]
    /\ clock w' = timedelta_seconds 40.
Proof.
  destruct (stop_escalates_to_terminate (sample_world [] (Some stubborn_child) 0)
              eq_refl)
    as [w' [H1 [H2 [H3 [_ [_ H6]]]]]].
  destruct (H6 stubborn_child eq_refl eq_refl (conj eq_refl (conj eq_refl eq_refl)))
    as [_ [H7 _]].
  exists w'. repeat split; assumption.
Defined.

(** C6 as stated fails: on a child that ignores the exit line and the
    terminate request, stop never kills, where the scheduled stop sequence
    does, and the child is still running when stop returns. *)
Lemma stop_has_no_kill_tier :
  let w := sample_world [] (Some stubborn_child) 0 in
  ~ In (Kill 4242) (trace (snd (stop w)))
  /\ In (Kill 4242) (trace (snd (scheduled_stop w)))
  /\ fst (is_alive (snd (stop w))) = Ok true
  /\ actions (trace (snd (stop w)))
     <> (actions (trace (snd (scheduled_stop w))) ++ [Join (timedelta_seconds 10)])%list.
Proof.
  vm_compute. repeat split.
  - intros H. repeat (destruct H as [H|H]; [discriminate H|]). exact H.
  - do 9 right. left. reflexivity.
  - discriminate.
Qed.

(** ** Start failure and backoff *)

(** The scan of the child's log directory only writes log records. *)
Lemma check_server_logs_only_logs (log_dir : string) (w : World) :
  exists r es, check_server_logs log_dir w = (r, set_trace (trace w ++ es) w).
Proof.
  destruct w as [cfg cp sp r th e me t n tr].
  unfold check_server_logs, scan_log. run. cbv [set_trace]. run.
  destruct (path_exists e log_dir) as [[|]|x]; run.
  2: { exists (Ok tt), []. now rewrite app_nil_r. }
  2: { exists (Raise x), []. now rewrite app_nil_r. }
  destruct (glob_logs e log_dir) as [found|x]; run.
  2: { exists (Raise x), []. now rewrite app_nil_r. }
  destruct (sorted_reverse snd found) as [|[newest mtime] others]; run.
  { exists (Ok tt), []. now rewrite app_nil_r. }
  destruct (readlines e newest) as [lines|x]; run.
  2: { eexists _, [_]. reflexivity. }
  destruct lines as [|l ls]; run.
  { exists (Ok tt), []. now rewrite app_nil_r. }
  destruct (find port_failure (rev (last_lines (l :: ls)))); run.
  { eexists _, [_]. reflexivity. }
  destruct (contains "ERR" (join EmptyString (last_lines (l :: ls)))); run.
  2: { exists (Ok tt), []. now rewrite app_nil_r. }
  destruct (find (contains "ERR") (rev (last_lines (l :: ls)))); run.
  { eexists _, [_]. reflexivity. }
  exists (Ok tt), []. now rewrite app_nil_r.
Qed.

Lemma nl_is_not_exit : (nl =? "exit" ++ nl)%string = false.
Proof. reflexivity. Qed.

(** A launch whose child is gone by the end of the grace period makes
    [start_server] return [False], three seconds later, with the dead child
    left in [server_process]. *)
Lemma start_server_child_exits (w : World) :
  executable_found w ->
  launches_fail_fast (env w) ->
  exists p es,
    start_server w
    = (Ok false,
       {| config := config w; config_path := config_path w;
          server_process := Some p; running := running w;
          reboot_thread := reboot_thread w; env := env w;
          in_reboot_thread := in_reboot_thread w;
          clock := clock w + timedelta_seconds 3;
          launches := S (launches w);
          trace := (trace w ++ es)%list |})
    /\ poll p (clock w + timedelta_seconds 3) <> None
    /\ In (Sleep (timedelta_seconds 3)) es
    /\ (exists cmd cwd shell, In (Spawn cmd cwd shell) es).
Proof.
  intros [Hex [resolved Hres]] Hff.
  destruct w as [cfg cp sp r th e me t n tr]. cbv [env config] in Hex, Hres, Hff.
  unfold start_server, launch, popen.
  rewrite sleep_nonneg by (apply timedelta_seconds_nonneg; lia).
  run. rewrite Hex. cbn [negb andb]. run. rewrite Hres. run.
  assert (Step : forall cmd cwd shell,
             exists c d code,
               spawn e n cmd cwd shell = Ok c
               /\ spec_lifetime c = Some (d, code)
               /\ (t + d <=? t + timedelta_seconds 3) = true).
  { intros cmd cwd shell.
    destruct (Hff n cmd cwd shell) as [c [d [code [Hs [Hl Hd]]]]].
    exists c, d, code. repeat split; auto. apply Z.leb_le. lia. }
  destruct (win32 e && contains " " resolved); run;
    match goal with
    | |- context [spawn e n ?cmd ?cwd ?shell] =>
        destruct (Step cmd cwd shell) as [[cpid clife cexit cterm] [d [code [Hs [Hl Hd]]]]];
        rewrite Hs; cbn in Hl; subst clife; run
    end;
    destruct (t + d <=? t) eqn:Dead; run;
    try (destruct cexit; run; try rewrite nl_is_not_exit; run);
    rewrite Hd; run;
    match goal with
    | |- context [check_server_logs ?dir ?R] =>
        destruct (check_server_logs_only_logs dir R) as [rr [es E]];
        rewrite E; clear E; cbv [set_trace trace]; destruct rr; run
    end;
    repeat rewrite <- app_assoc;
    (eexists; eexists; split; [reflexivity|]);
    (split; [cbv [poll ends]; rewrite Hd; discriminate|]);
    (split; [simpl; tauto|]);
    (do 3 eexists; simpl; tauto).
Qed.

Lemma supervise_step (fuel : nat) (w w' : World) (f : flow) :
  running w = true ->
  iteration w = (Ok f, w') ->
  supervise (S fuel) w = supervise fuel w'.
Proof.
  intros Hr Hi. cbn [supervise]. unfold bind at 1, ask at 1.
  rewrite Hr. unfold bind at 1. now rewrite Hi.
Qed.

(** One turn of the loop when the start fails: [start_server] returns
    [False], the loop logs, sleeps 60 seconds and continues, and the next
    turn finds the same situation. *)
Lemma failed_start_turn (w : World) :
  start_keeps_failing w ->
  exists w1 w2,
    start_server w = (Ok false, w1)
    /\ In (Sleep (timedelta_seconds 3)) (added w w1)
    /\ launches w1 = S (launches w)
    /\ cycle w = (Ok Continue, w2)
    /\ iteration w = (Ok Continue, w2)
    /\ added w1 w2
       = [Log ERROR "Failed to start server, retrying in 60 seconds..." [];
          Sleep (timedelta_seconds 60)]
    /\ clock w2 = clock w + timedelta_seconds 63
    /\ launches w2 = S (launches w)
    /\ start_keeps_failing w2.
Proof.
  intros [Hrun [Halive [Hfound Hff]]].
  destruct (start_server_child_exits w Hfound Hff) as [p [es [E [Hdead [Hsleep _]]]]].
  assert (C : cycle w
              = (Ok Continue,
                 {| config := config w; config_path := config_path w;
                    server_process := Some p; running := running w;
                    reboot_thread := reboot_thread w; env := env w;
                    in_reboot_thread := in_reboot_thread w;
                    clock := clock w + timedelta_seconds 3 + timedelta_seconds 60;
                    launches := S (launches w);
                    trace := (((trace w ++ es)
                               ++ [Log ERROR "Failed to start server, retrying in 60 seconds..." []])
                              ++ [Sleep (timedelta_seconds 60)])%list |})).
  { unfold cycle.
    rewrite (sleep_nonneg (timedelta_seconds 60))
      by (apply timedelta_seconds_nonneg; lia).
    unfold bind at 1. destruct (is_alive w) as [ra wa] eqn:A.
    assert (wa = w /\ ra = Ok false) as [-> ->].
    { unfold is_alive in A. cbn [fst] in Halive.
      destruct (server_process w); inversion A; subst; auto. }
    cbn [negb]. unfold bind at 1. rewrite E. run. cbn [negb]. run.
    reflexivity. }
  eexists. eexists. split; [exact E|].
  split; [erewrite added_app by reflexivity; exact Hsleep|].
  split; [reflexivity|].
  split; [exact C|].
  split; [unfold iteration, try_except; now rewrite C|].
  split; [erewrite added_app
            by (cbv [trace]; rewrite <- app_assoc; reflexivity); reflexivity|].
  split; [cbv [clock timedelta_seconds]; lia|].
  split; [reflexivity|].
  split; [exact Hrun|].
  split; [|split; [exact Hfound|exact Hff]].
  unfold is_alive. cbn [server_process clock fst].
  destruct (poll p (clock w + timedelta_seconds 3 + timedelta_seconds 60)) eqn:P;
    [reflexivity|].
  exfalso. apply Hdead. unfold poll in *.
  destruct (ends p) as [[t_end code]|]; [|reflexivity].
  destruct (Z.leb_spec t_end (clock w + timedelta_seconds 3)); [|reflexivity].
  destruct (Z.leb_spec t_end (clock w + timedelta_seconds 3 + timedelta_seconds 60));
    [discriminate|].
  unfold timedelta_seconds, us_per_second in *. lia.
Qed.

(** C8: when the child exits within the three seconds that start_server
    waits, start_server returns failure and the loop logs, sleeps 60 seconds
    and goes on to a turn that calls start_server again; as long as starts
    keep failing the loop is still running after any number of turns, with
    one launch and 63 seconds spent per turn. *)
Theorem failed_start_is_retried (w : World) :
  start_keeps_failing w ->
  (exists w1 w2,
      start_server w = (Ok false, w1)
      /\ In (Sleep (timedelta_seconds 3)) (added w w1)
      /\ iteration w = (Ok Continue, w2)
      /\ added w1 w2
         = [Log ERROR "Failed to start server, retrying in 60 seconds..." [];
            Sleep (timedelta_seconds 60)]
      /\ running w2 = true
      /\ fst (is_alive w2) = Ok false)
  /\ (forall fuel,
         exists w',
           supervise fuel w = (Ok false, w')
           /\ running w' = true
           /\ launches w' = (launches w + fuel)%nat
           /\ clock w' = clock w + Z.of_nat fuel * timedelta_seconds 63).
Proof.
  intros H. split.
  - destruct (failed_start_turn w H)
      as [w1 [w2 [E [Hs [_ [_ [I [A [_ [_ [Hr [Ha _]]]]]]]]]]]].
    exists w1, w2. repeat split; assumption.
  - intros fuel. revert w H.
    induction fuel as [|fuel IH]; intros w H.
    + exists w. destruct H as [Hr _]. cbn [supervise]. unfold bind, ask, ret.
      rewrite Hr. repeat split; [lia|cbn; lia].
    + destruct (failed_start_turn w H)
        as [w1 [w2 [_ [_ [_ [_ [I [_ [Hc [Hl H2]]]]]]]]]].
      destruct (IH w2 H2) as [w' [S' [Hr' [Hl' Hc']]]].
      exists w'. rewrite (supervise_step fuel w w2 Continue (proj1 H) I).
      repeat split; [exact S'|exact Hr'|lia|].
      rewrite Hc', Hc. unfold timedelta_seconds. lia.
Qed.

Lemma failed_start_is_retried_witness :
  exists w',
    supervise 2 (sample_world [] None 0) = (Ok false, w')
    /\ running w' = true
    /\ launches w' = 2%nat
    /\ clock w' = 0 + Z.of_nat 2 * timedelta_seconds 63.
Proof.
  refine (proj2 (failed_start_is_retried (sample_world [] None 0) _) 2%nat).
  split; [reflexivity|]. split; [reflexivity|]. split.
  - split; [reflexivity|]. eexists. reflexivity.
  - intros n cmd cwd shell. do 3 eexists.
    split; [reflexivity|]. split; [reflexivity|]. vm_compute. discriminate.
Defined.

(** ** Announcement planner *)

Section StableSort.
Context {A : Type} (key : A -> Z).

Lemma insert_desc_front (x : A) (l : list A) :
  Forall (fun y => key y <= key x) l -> insert_desc key x l = x :: l.
Proof.
  destruct l as [|y l]; [reflexivity|].
  intros H. inversion H; subst. simpl.
  destruct (Z.ltb_spec (key x) (key y)); [lia|reflexivity].
Qed.

Lemma insert_desc_In (a x : A) (l : list A) :
  In a (insert_desc key x l) <-> a = x \/ In a l.
Proof.
  induction l as [|y l IH]; simpl.
  - intuition.
  - destruct (key x <? key y); simpl; [rewrite IH|]; intuition.
Qed.

Lemma insert_desc_descending (x : A) (l : list A) :
  descending key l -> descending key (insert_desc key x l).
Proof.
  induction l as [|y l IH]; simpl.
  - auto.
  - intros [Hy Hl]. destruct (Z.ltb_spec (key x) (key y)); simpl.
    + split; [|auto].
      apply Forall_forall. intros a Ha. apply insert_desc_In in Ha.
      destruct Ha as [->|Ha]; [lia|].
      rewrite Forall_forall in Hy. auto.
    + split; [|auto].
      constructor; [assumption|].
      eapply Forall_impl; [|exact Hy]. simpl. intros. lia.
Qed.

Lemma sorted_reverse_descending (l : list A) : descending key (sorted_reverse key l).
Proof.
  induction l; simpl; [exact I|]. now apply insert_desc_descending.
Qed.

Lemma sorted_reverse_In (a : A) (l : list A) :
  In a (sorted_reverse key l) <-> In a l.
Proof.
  induction l as [|x l IH]; simpl; [tauto|].
  rewrite insert_desc_In, IH. intuition.
Qed.

Lemma filter_keeps_bound (keep : A -> bool) (x : A) (l : list A) :
  Forall (fun z => key z <= key x) l ->
  Forall (fun z => key z <= key x) (filter keep l).
Proof.
  induction 1 as [|z l Hz F IH]; simpl; [constructor|].
  destruct (keep z); [constructor|]; assumption.
Qed.

(** Filtering and sorting commute, the sort being stable. *)
Lemma filter_insert_desc (keep : A -> bool) (x : A) (l : list A) :
  descending key l ->
  filter keep (insert_desc key x l)
  = if keep x then insert_desc key x (filter keep l) else filter keep l.
Proof.
  induction l as [|y l IH]; simpl.
  - now destruct (keep x).
  - intros [Hy Hl]. destruct (Z.ltb_spec (key x) (key y)) as [L|L]; simpl.
    + rewrite (IH Hl).
      destruct (keep y), (keep x); simpl; try reflexivity.
      destruct (Z.ltb_spec (key x) (key y)); [reflexivity|lia].
    + destruct (keep x); [|reflexivity].
      symmetry. apply insert_desc_front.
      apply (filter_keeps_bound keep x (y :: l)).
      constructor; [assumption|].
      eapply Forall_impl; [|exact Hy]. simpl. intros. lia.
Qed.

Lemma filter_sorted_reverse (keep : A -> bool) (l : list A) :
  filter keep (sorted_reverse key l) = sorted_reverse key (filter keep l).
Proof.
  induction l as [|x l IH]; simpl; [reflexivity|].
  rewrite filter_insert_desc by apply sorted_reverse_descending.
  rewrite IH. now destruct (keep x).
Qed.
End StableSort.

(** Leaving out the elements on which the body does nothing. *)
Lemma for_each_skip {A} (keep : A -> bool) (body : A -> M unit) :
  (forall x w, keep x = false -> body x w = (Ok tt, w)) ->
  forall l w, for_each l body w = for_each (filter keep l) body w.
Proof.
  intros Hskip. induction l as [|x l IH]; intros w; simpl; [reflexivity|].
  destruct (keep x) eqn:K; simpl.
  - unfold bind. destruct (body x w) as [[[]|e] w1]; [apply IH|reflexivity].
  - unfold bind. rewrite (Hskip x w K). apply IH.
Qed.

(** The same when the body may fail there but the loop as a whole does not. *)
Lemma for_each_skip_ok {A} (keep : A -> bool) (body : A -> M unit) :
  (forall x w, keep x = false -> snd (body x w) = w) ->
  forall l w,
    fst (for_each l body w) = Ok tt ->
    for_each l body w = for_each (filter keep l) body w.
Proof.
  intros Hskip. induction l as [|x l IH]; intros w; simpl; [reflexivity|].
  destruct (keep x) eqn:K; simpl; unfold bind.
  - destruct (body x w) as [[[]|e] w1]; [apply IH|reflexivity].
  - pose proof (Hskip x w K) as S.
    destruct (body x w) as [[[]|e] w1]; simpl in *; subst.
    + apply IH.
    + discriminate.
Qed.

Lemma announce_eq (reboot_time now : datetime) (interval : Interval) (w : World) :
  announce reboot_time now interval w
  = match render (env w) reboot_time interval with
    | Raise x => (Raise x, w)
    | Ok None => (Ok tt, w)
    | Ok (Some (announcement_time, message)) =>
        if now <? announcement_time then
          (Ok tt,
           emits [TimerStart (announcement_time - now) (announcement message);
                  Log INFO "Scheduled announcement for {announcement_time}: {message}"
                      [ATime announcement_time; AStr message]] w)
        else (Ok tt, w)
    end.
Proof.
  unfold announce, bind, ask, lift.
  destruct (render (env w) reboot_time interval) as [[[t m]|]|x]; try reflexivity.
  destruct (now <? t); reflexivity.
Qed.

Lemma render_fire_time (e : Env) (reboot_time : datetime) (interval : Interval) :
  match render e reboot_time interval with
  | Ok (Some (t, _)) => fire_time reboot_time interval = Some t
  | Ok None => fire_time reboot_time interval = None
  | Raise _ => True
  end.
Proof.
  unfold render, fire_time.
  destruct (seconds_before interval) as [s|], (minutes_before interval) as [m|];
    repeat match goal with
           | |- context [if ?c then _ else _] => destruct c
           | |- context [format ?o ?k ?v ?t] => destruct (format o k v t)
           end; auto.
Qed.

Lemma env_emits (es : list event) (w : World) : env (emits es w) = env w.
Proof. revert w. induction es as [|e es IH]; intros w; simpl; [|rewrite IH]; reflexivity. Qed.

Lemma emits_app (es es' : list event) (w : World) :
  emits es' (emits es w) = emits (es ++ es') w.
Proof. unfold emits. now rewrite fold_left_app. Qed.

(** What the loop of [schedule_announcements] adds: every timer belongs to a
    rule whose fire time is after [now], and is set to go off then. *)
Lemma for_each_announce (reboot_time now : datetime) (l : list Interval) :
  forall w,
  exists es,
    snd (for_each l (announce reboot_time now) w) = emits es w
    /\ forall d c,
        In (TimerStart d c) es ->
        0 < d /\
        exists i msg,
          In i l
          /\ render (env w) reboot_time i = Ok (Some (now + d, msg))
          /\ c = announcement msg.
Proof.
  induction l as [|i l IH]; intros w; simpl.
  - exists []. split; [reflexivity|]. intros d c [].
  - unfold bind. rewrite announce_eq.
    destruct (render (env w) reboot_time i) as [[[t m]|]|x] eqn:R.
    + destruct (Z.ltb_spec now t) as [L|L].
      * match goal with
        | |- context [for_each l _ (emits ?es0 w)] =>
            destruct (IH (emits es0 w)) as [es [E H]]; exists (es0 ++ es)%list
        end.
        split; [rewrite E; apply emits_app|].
        intros d c Hin. apply in_app_or in Hin. destruct Hin as [Hin|Hin].
        -- destruct Hin as [Hin|[Hin|[]]]; [|discriminate].
           inversion Hin; subst. split; [lia|].
           exists i, m. split; [now left|]. split; [|reflexivity].
           rewrite R. do 3 f_equal. lia.
        -- destruct (H d c Hin) as [Hd [j [msg [Hj [Hr Hc]]]]].
           split; [assumption|]. exists j, msg.
           rewrite env_emits in Hr. auto.
      * destruct (IH w) as [es [E H]]. exists es. split; [exact E|].
        intros d c Hin. destruct (H d c Hin) as [Hd [j [msg [Hj [Hr Hc]]]]].
        split; [assumption|]. exists j, msg. auto.
    + destruct (IH w) as [es [E H]]. exists es. split; [exact E|].
      intros d c Hin. destruct (H d c Hin) as [Hd [j [msg [Hj [Hr Hc]]]]].
      split; [assumption|]. exists j, msg. auto.
    + exists []. split; [reflexivity|]. intros d c [].
Qed.

Lemma announce_missed (reboot_time now : datetime) (interval : Interval) (w : World) :
  missed reboot_time now interval = true ->
  snd (announce reboot_time now interval w) = w.
Proof.
  unfold missed. intros H. rewrite announce_eq.
  pose proof (render_fire_time (env w) reboot_time interval) as F.
  destruct (render (env w) reboot_time interval) as [[[t m]|]|x]; try reflexivity.
  rewrite F in H. apply Z.leb_le in H.
  destruct (Z.ltb_spec now t); [lia|reflexivity].
Qed.

Lemma announce_no_offset (reboot_time now : datetime) (interval : Interval) (w : World) :
  has_offset interval = false ->
  announce reboot_time now interval w = (Ok tt, w).
Proof.
  unfold has_offset. intros H. rewrite announce_eq. unfold render.
  destruct (seconds_before interval), (minutes_before interval);
    try discriminate; reflexivity.
Qed.

(** C4: a rule whose fire time is not after now leaves no trace in the
    plan: its turn of the loop starts no timer and logs nothing; every timer
    the planner starts goes off strictly after now, at the fire time of a
    rule; and a plan that completes is the plan of the rules that are
    not missed, so that planning again never makes up for a missed one. *)
Theorem missed_announcements_are_dropped :
  (forall reboot_time now interval w t,
      fire_time reboot_time interval = Some t ->
      t <= now ->
      snd (announce reboot_time now interval w) = w)
  /\ (forall reboot_time w d c,
         In (TimerStart d c)
            (added w (snd (schedule_announcements reboot_time w))) ->
         0 < d /\
         exists interval msg,
           In interval (announcement_intervals (config w))
           /\ fire_time reboot_time interval = Some (clock w + d)
           /\ render (env w) reboot_time interval = Ok (Some (clock w + d, msg))
           /\ c = announcement msg)
  /\ (forall reboot_time now intervals w,
         fst (plan reboot_time now intervals w) = Ok tt ->
         plan reboot_time now intervals w
         = plan reboot_time now
             (filter (fun i => negb (missed reboot_time now i)) intervals) w).
Proof.
  split; [|split].
  - intros rt now i w t F L. apply announce_missed.
    unfold missed. rewrite F. now apply Z.leb_le.
  - intros rt w d c. unfold schedule_announcements, plan, bind, ask.
    destruct (for_each_announce rt (clock w)
                (sorted_reverse get_seconds_before
                   (announcement_intervals (config w))) w) as [es [E H]].
    rewrite E, (added_app w (emits es w) es) by apply trace_emits.
    intros Hin. destruct (H d c Hin) as [Hd [i [msg [Hi [Hr Hc]]]]].
    split; [assumption|]. exists i, msg.
    apply sorted_reverse_In in Hi. repeat split; try assumption.
    pose proof (render_fire_time (env w) rt i) as F. now rewrite Hr in F.
  - intros rt now l w Hok. unfold plan in *.
    rewrite <- filter_sorted_reverse.
    apply for_each_skip_ok; [|assumption].
    intros i w0 K. apply announce_missed. now destruct (missed rt now i).
Qed.

Lemma missed_announcements_are_dropped_witness :
  snd (announce (at_clock 1 4 0 0) (at_clock 1 3 55 0) ten_minutes_rule
         (sample_world [ten_minutes_rule] None (at_clock 1 3 55 0)))
  = sample_world [ten_minutes_rule] None (at_clock 1 3 55 0).
Proof.
  apply (proj1 missed_announcements_are_dropped) with (t := at_clock 1 3 50 0).
  - reflexivity.
  - vm_compute. discriminate.
Defined.

(** C9, as the code has it: a rule with neither offset is skipped
    without a word: the plan is the plan of the rules that have an offset,
    with the same timers, the same log records and the same outcome. *)
Theorem rule_without_offset_is_skipped :
  (forall reboot_time now interval w,
      seconds_before interval = None ->
      minutes_before interval = None ->
      announce reboot_time now interval w = (Ok tt, w))
  /\ (forall reboot_time now intervals w,
         plan reboot_time now intervals w
         = plan reboot_time now (filter has_offset intervals) w).
Proof.
  split.
  - intros rt now i w Hs Hm. apply announce_no_offset.
    unfold has_offset. now rewrite Hs, Hm.
  - intros rt now l w. unfold plan.
    rewrite <- filter_sorted_reverse.
    apply for_each_skip. intros i w0 K. now apply announce_no_offset.
Qed.

Lemma rule_without_offset_is_skipped_witness :
  announce 100 0
    {| seconds_before := None; minutes_before := None; message := "Soon" |}
    (sample_world [] None 0)
  = (Ok tt, sample_world [] None 0).
Proof.
  apply (proj1 rule_without_offset_is_skipped); reflexivity.
Defined.

(** C9 as stated fails: planning a rule without an offset writes no log
    record at all. *)
Lemma skipped_rule_is_not_logged :
  let rule := {| seconds_before := None; minutes_before := None;
                 message := "Reboot soon" |} in
  let w := sample_world [rule] (Some stubborn_child) 0 in
  schedule_announcements (at_clock 0 4 0 0) w = (Ok tt, w)
  /\ ~ exists lvl msg args,
         In (Log lvl msg args)
            (added w (snd (schedule_announcements (at_clock 0 4 0 0) w))).
Proof.
  split; [reflexivity|].
  intros [lvl [msg [args H]]]. vm_compute in H. exact H.
Qed.

(** *** Message rendering *)


Lemma string_append_assoc (a b c : string) : (a ++ b) ++ c = a ++ b ++ c.
Proof. induction a as [|x a IH]; simpl; [|rewrite IH]; reflexivity. Qed.




Section Rendering.
Variable other : string -> Z -> result string.
Variable key : string.
Variable value : Z.

End Rendering.



Lemma prepend_prepend (a b : string) (r : result string) :
  prepend a (prepend b r) = prepend (a ++ b) r.
Proof. destruct r; simpl; [now rewrite string_append_assoc|reflexivity]. Qed.



(** The reading of templates on three small cases. *)
Example format_missing_keyword (other : string -> Z -> result string) :
  format other "minutes" 5 "{minutes} of {seconds}" = Raise KeyError.
Proof. reflexivity. Qed.

Example format_escaped_braces (other : string -> Z -> result string) :
  format other "seconds" 30 "{{{seconds}}} s" = Ok "{30} s".
Proof. reflexivity. Qed.

Example format_single_brace (other : string -> Z -> result string) :
  format other "seconds" 30 "{seconds} }" = Raise ValueError.
Proof. reflexivity. Qed.




(** * Further properties *)

(** ** Schedule calculator *)

Lemma in_range_fits (s : ScheduleEntry) :
  in_range s = true -> fits_c_int (hour s) && fits_c_int (minute s) = true.
Proof.
  unfold in_range, fits_c_int. intros H.
  repeat (apply andb_prop in H; destruct H as [H ?]).
  reflect_comparisons.
  repeat (apply andb_true_intro; split);
    (apply Z.leb_le || apply Z.ltb_lt); lia.
Qed.

Lemma replace_in_range (now : datetime) (s : ScheduleEntry) :
  replace now (hour s) (minute s)
  = if in_range s
    then Ok (midnight now + (hour s * 3600 + minute s * 60) * us_per_second)
    else Raise (rejection s).
Proof.
  unfold replace, rejection. destruct (in_range s) eqn:R.
  - rewrite (in_range_fits s R). cbn [negb]. unfold in_range in R. now rewrite R.
  - destruct (fits_c_int (hour s) && fits_c_int (minute s)); cbn [negb];
      [|reflexivity].
    unfold in_range in R. now rewrite R.
Qed.

(** The loop stops at the first entry it takes and cannot place. *)
Lemma collect_first_rejected (now : datetime) (schedule : list ScheduleEntry) :
  forall acc,
    match first_rejected schedule with
    | Some s => collect_reboot_times now schedule acc = Raise (rejection s)
    | None => exists l, collect_reboot_times now schedule acc = Ok l
    end.
Proof.
  unfold first_rejected.
  induction schedule as [|x rest IH]; intros acc; simpl; [eauto|].
  destruct (get_enabled x); simpl; [|apply IH].
  rewrite replace_in_range. destruct (in_range x); simpl; [apply IH|reflexivity].
Qed.

Lemma first_rejected_none (schedule : list ScheduleEntry) (s : ScheduleEntry) :
  first_rejected schedule = None ->
  In s schedule -> get_enabled s = true -> in_range s = true.
Proof.
  intros N Hin En. pose proof (find_none _ _ N s Hin) as X. cbv beta in X.
  rewrite En in X. destruct (in_range s); [reflexivity|discriminate].
Qed.



(** What the schedule raises is raised whatever the instant. *)
Lemma next_reboot_raises (now : datetime) (schedule : list ScheduleEntry)
      (r : ScheduleEntry) :
  first_rejected schedule = Some r ->
  exists e, get_next_reboot_time now schedule = Raise e.
Proof.
  intros F. pose proof (collect_first_rejected now schedule []) as C.
  rewrite F in C. unfold get_next_reboot_time. rewrite C. eauto.
Qed.

Lemma candidate_within_a_day (now : datetime) (s : ScheduleEntry) :
  well_formed s -> now < candidate now s <= now + timedelta_days 1.
Proof.
  intros [Hh Hm]. unfold candidate, timedelta_days. cbv zeta.
  pose proof (midnight_bounds now) as B.
  destruct (Z.leb_spec (midnight now + (hour s * 3600 + minute s * 60) * us_per_second) now);
    unfold us_per_day, us_per_second in *; lia.
Qed.

Lemma next_reboot_is_candidate (now : datetime) (schedule : list ScheduleEntry) (t : datetime) :
  get_next_reboot_time now schedule = Ok (Some t) ->
  is_minimum t (map (candidate now) (enabled_entries schedule))
  /\ Forall well_formed (enabled_entries schedule).
Proof.
  intros H.
  assert (Hwf : Forall well_formed (enabled_entries schedule)).
  { unfold get_next_reboot_time in H.
    destruct (collect_reboot_times now schedule []) eqn:C; [|discriminate].
    eapply collect_ok_well_formed; eassumption. }
  pose proof (get_next_reboot_time_minimum now schedule Hwf) as Hm.
  rewrite H in Hm. auto.
Qed.

(** X2: the instant get_next_reboot_time returns is at most one day after
    now, and it is the instant of an enabled entry today or tomorrow. *)
Theorem next_reboot_within_a_day (now : datetime) (schedule : list ScheduleEntry)
        (t : datetime) :
  get_next_reboot_time now schedule = Ok (Some t) ->
  now < t <= now + timedelta_days 1
  /\ exists s,
      In s schedule /\ get_enabled s = true
      /\ (t = midnight now + (hour s * 3600 + minute s * 60) * us_per_second
          \/ t = midnight now + timedelta_days 1
                 + (hour s * 3600 + minute s * 60) * us_per_second).
Proof.
  intros H. destruct (next_reboot_is_candidate now schedule t H) as [[Hin _] Hwf].
  apply in_map_iff in Hin. destruct Hin as [s [<- Hs]].
  rewrite Forall_forall in Hwf. pose proof (Hwf s Hs) as W.
  split; [now apply candidate_within_a_day|].
  unfold enabled_entries in Hs. apply filter_In in Hs. destruct Hs as [Hs En].
  exists s. split; [assumption|]. split; [assumption|].
  unfold candidate, timedelta_days. cbv zeta.
  destruct (midnight now + (hour s * 3600 + minute s * 60) * us_per_second <=? now);
    [right; lia|left; reflexivity].
Qed.

Lemma next_reboot_within_a_day_witness :
  at_clock 3 12 0 0 < at_clock 4 4 0 0 <= at_clock 3 12 0 0 + timedelta_days 1.
Proof.
  apply (next_reboot_within_a_day (at_clock 3 12 0 0)
           [{| hour := 4; minute := 0; enabled := None |}] (at_clock 4 4 0 0)).
  reflexivity.
Defined.

Lemma minimum_unique (l l' : list Z) (t t' : Z) :
  (forall x, In x l <-> In x l') ->
  is_minimum t l -> is_minimum t' l' -> t = t'.
Proof.
  intros E [Hin Hle] [Hin' Hle'].
  apply E in Hin. apply E in Hin'.
  specialize (Hle t' Hin'). specialize (Hle' t Hin). lia.
Qed.

(** X3: which entries the schedule holds, not their order or their
    repetitions, decides whether get_next_reboot_time raises and, when it
    does not, what it returns.  Which exception it raises is not decided by
    that: it is the one of the first entry that cannot be placed. *)
Theorem next_reboot_ignores_order (now : datetime) (schedule schedule' : list ScheduleEntry) :
  (forall s, In s schedule <-> In s schedule') ->
  match get_next_reboot_time now schedule, get_next_reboot_time now schedule' with
  | Ok t, Ok t' => t = t'
  | Raise _, Raise _ => True
  | _, _ => False
  end.
Proof.
  intros E.
  assert (En : forall s, In s (enabled_entries schedule)
                         <-> In s (enabled_entries schedule')).
  { intros s. unfold enabled_entries. rewrite !filter_In, E. tauto. }
  assert (T : forall l l', (forall s, In s l <-> In s l') ->
                           forall r, first_rejected l = Some r ->
                                     first_rejected l' <> None).
  { intros l l' El r F N. unfold first_rejected in F. apply find_some in F.
    destruct F as [Hin H]. apply andb_prop in H. destruct H as [H1 H2].
    apply El in Hin. rewrite (first_rejected_none l' r N Hin H1) in H2.
    discriminate. }
  destruct (first_rejected schedule) as [r|] eqn:F;
    destruct (first_rejected schedule') as [r'|] eqn:F'.
  - destruct (next_reboot_raises now schedule r F) as [e ->].
    now destruct (next_reboot_raises now schedule' r' F') as [e' ->].
  - exfalso. now apply (T schedule schedule' E r F).
  - exfalso. apply (T schedule' schedule) with (r := r'); [|assumption|assumption].
    intros s. symmetry. apply E.
  - assert (W : forall l, first_rejected l = None ->
                          Forall well_formed (enabled_entries l)).
    { intros l N. apply Forall_forall. intros s Hs.
      unfold enabled_entries in Hs. apply filter_In in Hs.
      destruct Hs as [Hin Hen].
      pose proof (first_rejected_none l s N Hin Hen) as Hl.
      unfold in_range in Hl. unfold well_formed.
      repeat (apply andb_prop in Hl; destruct Hl as [Hl ?]).
      reflect_comparisons. lia. }
    pose proof (get_next_reboot_time_minimum now schedule (W _ F)) as M.
    pose proof (get_next_reboot_time_minimum now schedule' (W _ F')) as M'.
    assert (Ec : forall x, In x (map (candidate now) (enabled_entries schedule))
                           <-> In x (map (candidate now) (enabled_entries schedule'))).
    { intros x. rewrite !in_map_iff. split; intros [s [Hx Hs]]; exists s;
        (split; [assumption|apply En; assumption]). }
    destruct (get_next_reboot_time now schedule) as [[t|]|]; [| |contradiction];
      destruct (get_next_reboot_time now schedule') as [[t'|]|]; try contradiction.
    + f_equal. eapply minimum_unique; eassumption.
    + destruct M as [Hin _]. rewrite M' in Ec. apply Ec in Hin. destruct Hin.
    + destruct M' as [Hin _]. rewrite M in Ec. apply Ec in Hin. destruct Hin.
    + reflexivity.
Qed.

Lemma next_reboot_ignores_order_witness :
  match
    get_next_reboot_time 0
      [{| hour := 4; minute := 0; enabled := None |};
       {| hour := 16; minute := 0; enabled := None |}],
    get_next_reboot_time 0
      [{| hour := 16; minute := 0; enabled := None |};
       {| hour := 4; minute := 0; enabled := None |};
       {| hour := 16; minute := 0; enabled := None |}]
  with
  | Ok t, Ok t' => t = t'
  | Raise _, Raise _ => True
  | _, _ => False
  end.
Proof.
  apply next_reboot_ignores_order. intros s. simpl. tauto.
Defined.

(** The exception is the one of the first entry that cannot be placed, so
    that the order of the entries shows in it. *)
Lemma exception_depends_on_order :
  let late := {| hour := 24; minute := 0; enabled := None |} in
  let huge := {| hour := 2 ^ 31; minute := 0; enabled := None |} in
  get_next_reboot_time 0 [late; huge] = Raise ValueError
  /\ get_next_reboot_time 0 [huge; late] = Raise OverflowError.
Proof. split; reflexivity. Qed.

(** ** Process controller *)



(** X5: wait_for_server_exit never raises and never waits longer than the
    timeout; it returns True exactly when no live child is left, and when it
    returns False the whole timeout has passed. *)
Theorem wait_for_server_exit_bounded (w : World) (timeout : timedelta) :
  0 <= timeout ->
  exists b w',
    wait_for_server_exit timeout w = (Ok b, w')
    /\ clock w <= clock w' <= clock w + timeout
    /\ (b = true <-> fst (is_alive w') = Ok false)
    /\ (b = false -> clock w' = clock w + timeout)
    /\ server_process w' = server_process w
    /\ running w' = running w.
Proof.
  intros Ht.
  destruct w as [cfg cp sp r th e me t n tr].
  unfold wait_for_server_exit. run.
  destruct sp as [[i sin [[t_end code]|] ed td]|]; run.
  - destruct (Z.leb_spec t_end (t + timeout)) as [L|L]; run.
    + do 2 eexists. split; [reflexivity|]. cbv [clock server_process running].
      destruct (Z.leb_spec t_end (Z.max t t_end)); [|lia].
      repeat split; try lia; try discriminate.
    + do 2 eexists. split; [reflexivity|]. cbv [clock server_process running].
      destruct (Z.leb_spec t_end (t + timeout)); [lia|].
      repeat split; try lia; try discriminate.
  - do 2 eexists. split; [reflexivity|]. cbv [clock server_process running].
    repeat split; try lia; try discriminate.
  - do 2 eexists. split; [reflexivity|]. cbv [clock server_process running].
    repeat split; try lia; try discriminate.
Qed.

Lemma wait_for_server_exit_bounded_witness :
  exists b w',
    wait_for_server_exit (timedelta_seconds 60)
      (sample_world [] (Some stubborn_child) 0) = (Ok b, w')
    /\ 0 <= clock w' <= 0 + timedelta_seconds 60.
Proof.
  destruct (wait_for_server_exit_bounded
              (sample_world [] (Some stubborn_child) 0) (timedelta_seconds 60))
    as [b [w' [H1 [H2 _]]]].
  - vm_compute. discriminate.
  - exists b, w'. split; assumption.
Defined.



(** X7: when the executable is in none of the three places start_server
    looks at, it returns False after one ERROR record, without launching;
    when Popen raises, it returns False after an ERROR record and leaves the
    process handle as it was. *)
Theorem start_server_without_child (w : World) :
  (path_exists (env w) (server_path (config w)) = Ok false ->
   path_exists (env w) (path_name (env w) (server_path (config w))) = Ok false ->
   path_exists (env w)
     (path_join (env w) (path_parent (env w) (config_path w))
        (server_path (config w))) = Ok false ->
   start_server w
   = (Ok false,
      emit (Log ERROR "Server executable not found: {self.config['server_path']}"
                [AStr (server_path (config w))]) w))
  /\ (forall resolved x,
         path_exists (env w) (server_path (config w)) = Ok true ->
         path_resolve (env w) (server_path (config w)) = Ok resolved ->
         (forall cmd cwd shell, spawn (env w) (launches w) cmd cwd shell = Raise x) ->
         exists w',
           start_server w = (Ok false, w')
           /\ server_process w' = server_process w
           /\ launches w' = S (launches w)
           /\ exists cmd cwd shell,
               added w w'
               = [Log INFO "Starting server: {' '.join(cmd)}"
                      [AStr (join " " (resolved :: server_args (config w)))];
                  Log INFO "Working directory: {working_dir}"
                      [AStr (path_parent (env w) resolved)];
                  Log INFO "Starting server in directory: {working_dir}"
                      [AStr (path_parent (env w) resolved)];
                  Spawn cmd cwd shell;
                  Log ERROR "Failed to start server: {e}" [AExn x]]).
Proof.
  destruct w as [cfg cp sp r th e me t n tr].
  cbv [env config config_path launches]. split.
  - intros H1 H2 H3. unfold start_server. run.
    rewrite H1. run. rewrite H2. run. cbn [negb]. run.
    rewrite H3. run. cbn [negb]. run. reflexivity.
  - intros resolved x Hex Hres Hspawn.
    unfold start_server, launch, popen.
    rewrite sleep_nonneg by (apply timedelta_seconds_nonneg; lia).
    run. rewrite Hex. run. rewrite Hres. run.
    destruct (win32 e && contains " " resolved); run;
      rewrite Hspawn; run;
      (eexists; split; [reflexivity|]);
      (split; [reflexivity|]); (split; [reflexivity|]);
      do 3 eexists;
      (erewrite added_app
         by (cbv [trace]; repeat rewrite <- app_assoc; reflexivity));
      reflexivity.
Qed.

Lemma start_server_without_child_witness :
  let w := {| config := sample_config []; config_path := "reboot_config.json";
              server_process := None; running := true; reboot_thread := true;
              env := {| path_exists := fun _ => Ok false;
                        path_name := path_name sample_env;
                        path_parent := path_parent sample_env;
                        path_join := path_join sample_env;
                        path_resolve := path_resolve sample_env;
                        win32 := false;
                        spawn := spawn sample_env;
                        glob_logs := glob_logs sample_env;
                        readlines := readlines sample_env;
                        format_other := format_other sample_env;
                        thread_runs_for := thread_runs_for sample_env |};
              in_reboot_thread := true; clock := 0; launches := 0; trace := [] |} in
  start_server w
  = (Ok false,
     emit (Log ERROR "Server executable not found: {self.config['server_path']}"
               [AStr (server_path (config w))]) w).
Proof.
  intros w. apply (proj1 (start_server_without_child w)); reflexivity.
Defined.

(** X8: when the executable is found and the child is still running
    after the three seconds, start_server returns True; it has launched once,
    written one empty line to the child's stdin right after the launch and
    before the wait, and logged the child's pid. *)
Theorem start_server_succeeds (w : World) (resolved : string) (c : ChildSpec) :
  path_exists (env w) (server_path (config w)) = Ok true ->
  path_resolve (env w) (server_path (config w)) = Ok resolved ->
  (forall cmd cwd shell, spawn (env w) (launches w) cmd cwd shell = Ok c) ->
  match spec_lifetime c with
  | Some (d, _) => timedelta_seconds 3 < d
  | None => True
  end ->
  exists w' cmd shell,
    start_server w = (Ok true, w')
    /\ added w w'
       = [Log INFO "Starting server: {' '.join(cmd)}"
              [AStr (join " " (resolved :: server_args (config w)))];
          Log INFO "Working directory: {working_dir}"
              [AStr (path_parent (env w) resolved)];
          Log INFO "Starting server in directory: {working_dir}"
              [AStr (path_parent (env w) resolved)];
          Spawn cmd (path_parent (env w) resolved) shell;
          StdinWrite (spec_pid c) nl;
          StdinFlush (spec_pid c);
          Log DEBUG "Primed stdin with newline" [];
          Sleep (timedelta_seconds 3);
          Log INFO "Server started with PID: {self.server_process.pid}"
              [AInt (spec_pid c)]]
    /\ launches w' = S (launches w)
    /\ exists p, server_process w' = Some p /\ pid p = spec_pid c
                 /\ poll p (clock w') = None.
Proof.
  destruct w as [cfg cp sp r th e me t n tr].
  cbv [env config launches]. intros Hex Hres Hspawn Hlife.
  destruct c as [cpid clife cexit cterm]. cbv [spec_lifetime spec_pid] in *.
  unfold start_server, launch, popen.
  rewrite sleep_nonneg by (apply timedelta_seconds_nonneg; lia).
  run. rewrite Hex. run. rewrite Hres. run.
  assert (P : 0 < timedelta_seconds 3) by (cbv; reflexivity).
  destruct (win32 e && contains " " resolved); run;
    rewrite Hspawn; run;
    (destruct clife as [[d code]|]; run;
     [destruct (Z.leb_spec (t + d) t); [lia|]; run|]);
    (destruct cexit; run; try rewrite nl_is_not_exit; run);
    try (destruct (Z.leb_spec (t + d) (t + timedelta_seconds 3)); [lia|]; run);
    (do 3 eexists; split; [reflexivity|]);
    (erewrite added_app
       by (cbv [trace]; repeat rewrite <- app_assoc; reflexivity));
    (split; [reflexivity|]); (split; [reflexivity|]);
    eexists; (split; [reflexivity|]); (split; [reflexivity|]);
    cbv [poll ends clock];
    try (destruct (Z.leb_spec (t + d) (t + timedelta_seconds 3)); [lia|]);
    reflexivity.
Qed.

Lemma start_server_succeeds_witness :
  let lasting := {| spec_pid := 7; spec_lifetime := None;
                    spec_exit_delay := Some 0; spec_term_delay := Some 0 |} in
  let w := {| config := sample_config []; config_path := "reboot_config.json";
              server_process := None; running := true; reboot_thread := true;
              env := {| path_exists := path_exists sample_env;
                        path_name := path_name sample_env;
                        path_parent := path_parent sample_env;
                        path_join := path_join sample_env;
                        path_resolve := path_resolve sample_env;
                        win32 := false;
                        spawn := fun _ _ _ _ => Ok lasting;
                        glob_logs := glob_logs sample_env;
                        readlines := readlines sample_env;
                        format_other := format_other sample_env;
                        thread_runs_for := thread_runs_for sample_env |};
              in_reboot_thread := true; clock := 0; launches := 0; trace := [] |} in
  exists w', start_server w = (Ok true, w') /\ launches w' = 1%nat.
Proof.
  intros lasting w.
  destruct (start_server_succeeds w "/srv/intersect/server" lasting
              eq_refl eq_refl (fun _ _ _ => eq_refl) I)
    as [w' [cmd [shell [H1 [_ [H2 _]]]]]].
  exists w'. split; assumption.
Defined.

(** ** Supervisor loop *)

(** What the stop sequence of a scheduled reboot comes to in any state. *)
Lemma scheduled_stop_outcome (w : World) :
  exists w',
    scheduled_stop w = (Ok tt, w')
    /\ fst (is_alive w') = Ok false
    /\ clock w <= clock w' <= clock w + timedelta_seconds 65
    /\ running w' = running w
    /\ config w' = config w.
Proof.
  destruct w as [cfg cp sp r th e me t n tr].
  unfold scheduled_stop, send_command, wait_for_server_exit.
  rewrite sleep_nonneg by (apply timedelta_seconds_nonneg; lia).
  assert (S60 : timedelta_seconds 60 = 60000000) by reflexivity.
  assert (S5 : timedelta_seconds 5 = 5000000) by reflexivity.
  assert (S65 : timedelta_seconds 65 = 65000000) by reflexivity.
  destruct sp as [[i [[|]|] [[t_end code]|] [d|] [d'|]]|]; run; split_cases;
    (eexists; split; [reflexivity|]);
    cbv [is_alive server_process poll ends clock running config fst];
    close_case.
Qed.

(** X9: whatever the child does and whatever the state of its pipe, the
    stop sequence of a scheduled reboot returns normally within 65 seconds
    and leaves no running child. *)
Theorem scheduled_stop_ends_child (w : World) :
  exists w',
    scheduled_stop w = (Ok tt, w')
    /\ fst (is_alive w') = Ok false
    /\ clock w <= clock w' <= clock w + timedelta_seconds 65
    /\ running w' = running w.
Proof.
  destruct (scheduled_stop_outcome w) as [w' [H1 [H2 [H3 [H4 _]]]]].
  exists w'. auto.
Qed.

Lemma supervise_stopped (fuel : nat) (w : World) :
  running w = false -> supervise fuel w = (Ok true, w).
Proof.
  intros H. destruct fuel; cbn [supervise]; unfold bind, ask, ret; now rewrite H.
Qed.

(** X10: stop clears the running flag in every state, asks the child to
    exit and then to terminate but never kills it and never sleeps, returns
    within 40 seconds, of which up to 30 are the wait for the child and up
    to 10 the join of the control thread, does not raise when called from
    outside the control thread, and with no running child does nothing but
    join the thread. *)
Theorem stop_clears_running_never_kills (w : World) :
  running (snd (stop w)) = false
  /\ (forall i, ~ In (Kill i) (added w (snd (stop w))))
  /\ (forall d, ~ In (Sleep d) (added w (snd (stop w))))
  /\ clock w <= clock (snd (stop w)) <= clock w + timedelta_seconds 40
  /\ (in_reboot_thread w = false -> fst (stop w) = Ok tt)
  /\ (in_reboot_thread w = false ->
      fst (is_alive w) = Ok false ->
      actions (added w (snd (stop w)))
      = if reboot_thread w then [Join (timedelta_seconds 10)] else []).
Proof.
  destruct (stop_outcome w) as [r [w' [E [H1 [H2 [H3 [H4 [H5 [_ H6]]]]]]]]].
  rewrite E. cbn [fst snd]. repeat split; auto; apply H4.
Qed.

Lemma stop_clears_running_never_kills_witness :
  fst (stop (sample_world [] (Some stubborn_child) 0)) = Ok tt.
Proof.
  apply (stop_clears_running_never_kills (sample_world [] (Some stubborn_child) 0)).
  reflexivity.
Defined.

(** *** What a turn of the loop leaves alone *)

Section Frame.
Context {X : Type} (f : World -> X) (Hf : loop_invariant f).

Lemma preserves_ret {A} (a : A) : preserves f (ret a).
Proof. intros w. reflexivity. Qed.

Lemma preserves_raise {A} (e : exn) : preserves f (@raise A e).
Proof. intros w. reflexivity. Qed.

Lemma preserves_ask {A} (g : World -> A) : preserves f (ask g).
Proof. intros w. reflexivity. Qed.

Lemma preserves_lift {A} (r : result A) : preserves f (lift r).
Proof. intros w. reflexivity. Qed.

Lemma preserves_modify (g : World -> World) :
  (forall w, f (g w) = f w) -> preserves f (modify g).
Proof. intros H w. apply H. Qed.

Lemma preserves_perform (e : event) : preserves f (perform e).
Proof. apply preserves_modify. apply Hf. Qed.

Lemma preserves_bind {A B} (m : M A) (k : A -> M B) :
  preserves f m -> (forall a, preserves f (k a)) -> preserves f (bind m k).
Proof.
  intros Hm Hk w. unfold bind. specialize (Hm w).
  destruct (m w) as [[a|e] w1]; cbn [snd] in *; [|assumption].
  now rewrite Hk.
Qed.

Lemma preserves_try_except {A} (body : M A) (handler : exn -> option (M A)) :
  preserves f body ->
  (forall e h, handler e = Some h -> preserves f h) ->
  preserves f (try_except body handler).
Proof.
  intros Hb Hh w. unfold try_except. specialize (Hb w).
  destruct (body w) as [[a|e] w1]; cbn [snd] in *; [assumption|].
  destruct (handler e) as [h|] eqn:E; [|assumption].
  now rewrite (Hh e h E).
Qed.

Lemma preserves_for_each {A} (l : list A) (body : A -> M unit) :
  (forall x, preserves f (body x)) -> preserves f (for_each l body).
Proof.
  intros Hb. induction l as [|x l IH]; cbn [for_each].
  - apply preserves_ret.
  - apply preserves_bind; auto.
Qed.

Lemma preserves_the_process : preserves f the_process.
Proof. intros w. unfold the_process. now destruct (server_process w). Qed.

Lemma preserves_is_alive : preserves f is_alive.
Proof. intros w. unfold is_alive. now destruct (server_process w). Qed.

(** Take a computation apart down to the operations above. *)
Ltac frame_with known :=
  repeat first
    [ assumption
    | known
    | apply preserves_the_process
    | apply preserves_is_alive
    | apply preserves_ret
    | apply preserves_raise
    | apply preserves_ask
    | apply preserves_lift
    | apply preserves_perform
    | apply preserves_modify; intro; apply Hf
    | apply preserves_bind; [|intro]
    | apply preserves_for_each; intro
    | apply preserves_try_except;
      [|let e := fresh "e" in
        let h := fresh "h" in
        let H := fresh "H" in
        intros e h H; unfold except_Exception in H;
        try (destruct e); inversion H; subst; clear H]
    | match goal with
      | |- preserves _ (match ?x with _ => _ end) => destruct x
      end ].

Ltac frame := frame_with fail.

Lemma preserves_log lvl msg args : preserves f (log lvl msg args).
Proof. unfold log. frame. Qed.

Lemma preserves_sleep d : preserves f (sleep d).
Proof. unfold sleep. frame. Qed.

Lemma preserves_stdin_write text : preserves f (stdin_write text).
Proof. unfold stdin_write. frame. Qed.

Lemma preserves_stdin_flush : preserves f stdin_flush.
Proof. unfold stdin_flush. frame. Qed.

Lemma preserves_proc_wait timeout : preserves f (proc_wait timeout).
Proof. unfold proc_wait. frame. Qed.

Lemma preserves_proc_terminate : preserves f proc_terminate.
Proof. unfold proc_terminate. frame. Qed.

Lemma preserves_proc_kill : preserves f proc_kill.
Proof. unfold proc_kill. frame. Qed.

Lemma preserves_popen cmd cwd shell : preserves f (popen cmd cwd shell).
Proof. unfold popen. frame. Qed.

Lemma preserves_send_command command : preserves f (send_command command).
Proof.
  pose proof preserves_stdin_flush.
  pose proof (preserves_stdin_write (command ++ nl)).
  unfold send_command, log. frame.
Qed.

Lemma preserves_wait_for_server_exit timeout :
  preserves f (wait_for_server_exit timeout).
Proof.
  pose proof (preserves_proc_wait timeout).
  unfold wait_for_server_exit, log. frame.
Qed.

Lemma preserves_check_server_logs log_dir : preserves f (check_server_logs log_dir).
Proof. unfold check_server_logs, scan_log, log. frame. Qed.

Lemma preserves_launch located : preserves f (launch located).
Proof.
  pose proof preserves_stdin_flush.
  pose proof (preserves_stdin_write nl).
  pose proof (preserves_sleep (timedelta_seconds 3)).
  unfold launch, log.
  frame_with ltac:(first [ apply preserves_popen
                         | apply preserves_check_server_logs ]).
Qed.

Lemma preserves_start_server : preserves f start_server.
Proof.
  unfold start_server, log.
  frame_with ltac:(apply preserves_launch).
Qed.

Lemma preserves_announce reboot_time now interval :
  preserves f (announce reboot_time now interval).
Proof. unfold announce, timer_start, log. frame. Qed.

Lemma preserves_schedule_announcements reboot_time :
  preserves f (schedule_announcements reboot_time).
Proof.
  unfold schedule_announcements, plan.
  frame_with ltac:(apply preserves_announce).
Qed.

Lemma preserves_scheduled_stop : preserves f scheduled_stop.
Proof.
  pose proof preserves_proc_terminate.
  pose proof preserves_proc_kill.
  pose proof (preserves_sleep (timedelta_seconds 5)).
  unfold scheduled_stop, log.
  frame_with ltac:(first [ apply preserves_send_command
                         | apply preserves_wait_for_server_exit ]).
Qed.

Lemma preserves_cycle : preserves f cycle.
Proof.
  pose proof preserves_start_server.
  pose proof preserves_scheduled_stop.
  unfold cycle, log.
  frame_with ltac:(first [ apply preserves_schedule_announcements
                         | apply preserves_sleep ]).
Qed.

Lemma preserves_iteration : preserves f iteration.
Proof.
  pose proof preserves_cycle.
  pose proof (preserves_sleep (timedelta_seconds 60)).
  unfold iteration, log. frame.
Qed.

End Frame.

Lemma running_loop_invariant : loop_invariant running.
Proof. repeat split. Qed.

Lemma config_loop_invariant : loop_invariant config.
Proof. repeat split. Qed.

Lemma env_loop_invariant : loop_invariant env.
Proof. repeat split. Qed.

(** A turn of the loop always ends normally: what its body raises is caught. *)
Lemma iteration_returns (w : World) : exists fl w', iteration w = (Ok fl, w').
Proof.
  unfold iteration, try_except, except_Exception.
  destruct (cycle w) as [[fl|e] w1]; [eauto|].
  rewrite sleep_nonneg by (apply timedelta_seconds_nonneg; lia).
  do 2 eexists. reflexivity.
Qed.

(** X12: as long as the running flag is set the loop neither ends nor
    raises, whatever happens in its turns: after any number of turns it is
    still going, with the flag set and the configuration as it was. *)
Theorem loop_never_ends_on_its_own (fuel : nat) (w : World) :
  running w = true ->
  exists w',
    reboot_cycle fuel w = (Ok false, w')
    /\ running w' = true
    /\ config w' = config w
    /\ env w' = env w.
Proof.
  intros Hr. unfold reboot_cycle, bind, log, perform, modify.
  set (w0 := emit (Log INFO "Auto reboot tool started" []) w).
  assert (H0 : running w0 = true /\ config w0 = config w /\ env w0 = env w)
    by (repeat split; assumption).
  clearbody w0. revert w0 H0.
  induction fuel as [|fuel IH]; intros w0 [R0 [C0 E0]].
  - exists w0. cbn [supervise]. unfold bind, ask, ret. rewrite R0. auto.
  - destruct (iteration_returns w0) as [fl [w1 I]].
    rewrite (supervise_step fuel w0 w1 fl R0 I).
    pose proof (preserves_iteration running running_loop_invariant w0) as P1.
    pose proof (preserves_iteration config config_loop_invariant w0) as P2.
    pose proof (preserves_iteration env env_loop_invariant w0) as P3.
    rewrite I in P1, P2, P3. cbn [snd] in *.
    apply IH. repeat split; congruence.
Qed.

Lemma loop_never_ends_on_its_own_witness :
  exists w',
    reboot_cycle 3 (sample_world [] (Some stubborn_child) 0) = (Ok false, w')
    /\ running w' = true.
Proof.
  destruct (loop_never_ends_on_its_own 3 (sample_world [] (Some stubborn_child) 0)
              eq_refl) as [w' [H1 [H2 _]]].
  exists w'. split; assumption.
Defined.

(** ** Announcement planner *)

Lemma forallb_app {A} (p : A -> bool) (l l' : list A) :
  forallb p (l ++ l') = forallb p l && forallb p l'.
Proof. induction l as [|x l IH]; simpl; [reflexivity|]. now rewrite IH, andb_assoc. Qed.

(** The loop of [schedule_announcements] only starts timers and logs them. *)
Lemma plan_emits (reboot_time now : datetime) (l : list Interval) :
  forall w,
  exists es,
    snd (for_each l (announce reboot_time now) w) = emits es w
    /\ forallb timer_or_log es = true.
Proof.
  induction l as [|i l IH]; intros w; cbn [for_each].
  - exists []. split; reflexivity.
  - unfold bind. rewrite announce_eq.
    destruct (render (env w) reboot_time i) as [[[t m]|]|x].
    + destruct (now <? t).
      * match goal with
        | |- context [for_each l _ (emits ?es0 w)] =>
            destruct (IH (emits es0 w)) as [es [E H]]; exists (es0 ++ es)%list
        end.
        split; [rewrite E; apply emits_app|].
        rewrite forallb_app, H. reflexivity.
      * apply IH.
    + apply IH.
    + exists []. split; reflexivity.
Qed.


Lemma plan_aborts (reboot_time now : datetime) (l : list Interval) :
  forall w i x,
    In i l -> render (env w) reboot_time i = Raise x ->
    exists x', fst (for_each l (announce reboot_time now) w) = Raise x'.
Proof.
  induction l as [|j l IH]; intros w i x Hin R; [destruct Hin|].
  cbn [for_each]. unfold bind. rewrite announce_eq.
  destruct (render (env w) reboot_time j) as [[[t m]|]|y] eqn:Rj.
  - destruct Hin as [->|Hin]; [congruence|].
    destruct (now <? t); eapply IH; eassumption.
  - destruct Hin as [->|Hin]; [congruence|]. eapply IH; eassumption.
  - eexists. reflexivity.
Qed.

Lemma fields_emits (es : list event) (w : World) :
  server_process (emits es w) = server_process w
  /\ clock (emits es w) = clock w
  /\ running (emits es w) = running w
  /\ config (emits es w) = config w
  /\ launches (emits es w) = launches w.
Proof.
  revert w. induction es as [|e es IH]; intros w; [repeat split|].
  cbn [emits fold_left]. fold (emits es (emit e w)).
  destruct (IH (emit e w)) as [H1 [H2 [H3 [H4 H5]]]].
  rewrite H1, H2, H3, H4, H5. repeat split.
Qed.

(** X13: schedule_announcements only arms timers and writes their log
    records: nothing is sent to the child when the plan is made, and the
    process handle, the clock and the running flag are as before. *)
Theorem planning_only_arms_timers (reboot_time : datetime) (w : World) :
  let w' := snd (schedule_announcements reboot_time w) in
  forallb timer_or_log (added w w') = true
  /\ server_process w' = server_process w
  /\ clock w' = clock w
  /\ running w' = running w.
Proof.
  unfold schedule_announcements, plan, bind, ask. cbv zeta.
  destruct (plan_emits reboot_time (clock w)
              (sorted_reverse get_seconds_before
                 (announcement_intervals (config w))) w) as [es [E H]].
  rewrite E, (added_app w (emits es w) es) by apply trace_emits.
  destruct (fields_emits es w) as [H1 [H2 [H3 _]]]. auto.
Qed.

(** X14: a rule whose template str.format rejects makes the whole plan
    fail with an exception, whether or not its fire time has passed. *)
Theorem bad_template_fails_plan (reboot_time : datetime) (w : World)
        (interval : Interval) (x : exn) :
  In interval (announcement_intervals (config w)) ->
  render (env w) reboot_time interval = Raise x ->
  exists x', fst (schedule_announcements reboot_time w) = Raise x'.
Proof.
  intros Hin R. unfold schedule_announcements, plan, bind, ask.
  eapply plan_aborts; [|exact R]. now apply sorted_reverse_In.
Qed.

Lemma bad_template_fails_plan_witness :
  exists x',
    fst (schedule_announcements (at_clock 1 4 0 0)
           (sample_world
              [ten_minutes_rule;
               {| seconds_before := None; minutes_before := Some 1;
                  message := "{minutes} minute, {name}" |}]
              None (at_clock 1 3 59 30)))
    = Raise x'.
Proof.
  eapply bad_template_fails_plan with (x := KeyError).
  - right. left. reflexivity.
  - reflexivity.
Defined.

Lemma render_offset (e : Env) (reboot_time : datetime) (interval : Interval)
      (t : datetime) (m : string) :
  render e reboot_time interval = Ok (Some (t, m)) ->
  t = reboot_time - get_seconds_before interval * us_per_second.
Proof.
  unfold render, get_seconds_before, timedelta_seconds, timedelta_minutes.
  destruct (seconds_before interval) as [s|], (minutes_before interval) as [mm|];
    repeat match goal with
           | |- context [if ?c then _ else _] => destruct c
           | |- context [format ?o ?k ?v ?tm] => destruct (format o k v tm)
           end; intros H; inversion H; lia.
Qed.

Lemma timer_delays_app (es es' : list event) :
  timer_delays (es ++ es') = (timer_delays es ++ timer_delays es')%list.
Proof.
  induction es as [|e es IH]; simpl; [reflexivity|].
  destruct e; simpl; now rewrite ?IH.
Qed.

(** Over rules sorted by offset, largest first, the delays of the timers
    come out smallest first. *)
Lemma plan_ascending (reboot_time now : datetime) (l : list Interval) :
  descending get_seconds_before l ->
  forall w,
  exists es,
    snd (for_each l (announce reboot_time now) w) = emits es w
    /\ ascending (timer_delays es)
    /\ Forall (fun d => exists i,
                   In i l
                   /\ d = reboot_time - get_seconds_before i * us_per_second - now)
              (timer_delays es).
Proof.
  induction l as [|i l IH]; intros D w; cbn [for_each].
  - exists []. repeat split; constructor.
  - destruct D as [Hi D]. unfold bind. rewrite announce_eq.
    assert (Tail : forall w',
               exists es,
                 snd (for_each l (announce reboot_time now) w') = emits es w'
                 /\ ascending (timer_delays es)
                 /\ Forall (fun d => exists j,
                                In j (i :: l)
                                /\ d = reboot_time - get_seconds_before j * us_per_second - now)
                           (timer_delays es)
                 /\ Forall (fun d => reboot_time - get_seconds_before i * us_per_second - now <= d)
                           (timer_delays es)).
    { intros w'. destruct (IH D w') as [es [E [A F]]]. exists es.
      repeat split; try assumption.
      - eapply Forall_impl; [|exact F]. intros d [j [Hj Hd]]. exists j.
        split; [now right|assumption].
      - eapply Forall_impl; [|exact F]. intros d [j [Hj Hd]]. subst d.
        rewrite Forall_forall in Hi. specialize (Hi j Hj).
        unfold us_per_second. lia. }
    destruct (render (env w) reboot_time i) as [[[t m]|]|x] eqn:R.
    + destruct (now <? t).
      * match goal with
        | |- context [for_each l _ (emits ?es0 w)] =>
            destruct (Tail (emits es0 w)) as [es [E [A [F B]]]];
            exists (es0 ++ es)%list
        end.
        apply render_offset in R. subst t.
        split; [rewrite E; apply emits_app|].
        rewrite timer_delays_app. cbn [timer_delays app].
        split; [split; assumption|].
        constructor; [|assumption]. exists i. split; [now left|reflexivity].
      * destruct (Tail w) as [es [E [A [F _]]]]. exists es. auto.
    + destruct (Tail w) as [es [E [A [F _]]]]. exists es. auto.
    + exists []. repeat split; constructor.
Qed.

(** X15: the timers are armed in the order of their fire times, the
    earliest first, each with the delay from now to the reboot time minus the
    offset of its rule. *)
Theorem timers_armed_earliest_first (reboot_time : datetime) (w : World) :
  let delays :=
    timer_delays (added w (snd (schedule_announcements reboot_time w))) in
  ascending delays
  /\ Forall (fun d => exists interval,
                 In interval (announcement_intervals (config w))
                 /\ d = reboot_time
                        - get_seconds_before interval * us_per_second
                        - clock w)
            delays.
Proof.
  unfold schedule_announcements, plan, bind, ask. cbv zeta.
  destruct (plan_ascending reboot_time (clock w)
              (sorted_reverse get_seconds_before
                 (announcement_intervals (config w)))
              (sorted_reverse_descending _ _) w) as [es [E [A F]]].
  rewrite E, (added_app w (emits es w) es) by apply trace_emits.
  split; [assumption|].
  eapply Forall_impl; [|exact F]. intros d [i [Hi Hd]]. exists i.
  split; [now apply sorted_reverse_In in Hi|assumption].
Qed.

(** ** A turn of the loop *)










(** X18: with a running child and no enabled schedule entry the turn
    leaves the child alone: it logs a warning, sleeps one hour and continues. *)
Theorem idle_without_schedule (w : World) (p : Popen) :
  server_process w = Some p ->
  poll p (clock w) = None ->
  enabled_entries (reboot_schedule (config w)) = [] ->
  cycle w
  = (Ok Continue,
     set_clock (clock w + timedelta_seconds 3600)
       (emits [Log WARNING "No reboot schedule configured, sleeping for 1 hour" [];
               Sleep (timedelta_seconds 3600)] w)).
Proof.
  intros Hsp Halive Hnone.
  apply get_next_reboot_time_none with (now := clock w) in Hnone.
  unfold cycle.
  rewrite (sleep_nonneg (timedelta_seconds 3600))
    by (apply timedelta_seconds_nonneg; lia).
  unfold bind at 1.
  assert (IA : is_alive w = (Ok true, w)).
  { unfold is_alive. rewrite Hsp, Halive. reflexivity. }
  rewrite IA. cbn [negb]. unfold bind at 1, ret at 1. cbn [negb].
  unfold bind at 1, ask at 1. unfold bind at 1, ask at 1.
  unfold bind at 1, lift at 1. rewrite Hnone.
  reflexivity.
Qed.

Lemma idle_without_schedule_witness :
  let w := {| config := {| server_path := "/srv/intersect/server";
                           server_args := [];
                           reboot_schedule :=
                             [{| hour := 4; minute := 0; enabled := Some (JBool false) |}];
                           announcement_intervals := [];
                           restart_delay_seconds := 10 |};
              config_path := "reboot_config.json";
              server_process := Some stubborn_child;
              running := true; reboot_thread := true; env := sample_env;
              in_reboot_thread := true; clock := 0;
              launches := 1; trace := [] |} in
  cycle w
  = (Ok Continue,
     set_clock (clock w + timedelta_seconds 3600)
       (emits [Log WARNING "No reboot schedule configured, sleeping for 1 hour" [];
               Sleep (timedelta_seconds 3600)] w)).
Proof.
  intros w. apply (idle_without_schedule w stubborn_child); reflexivity.
Defined.

(** X19: start sets the running flag and starts the control thread once:
    a second call only logs a warning. *)
Theorem start_is_idempotent (w : World) :
  let w' := snd ((start ;; start) w) in
  running w' = true
  /\ actions (added w w') = (if running w then [] else [ThreadStart])
  /\ fst ((start ;; start) w) = Ok tt.
Proof.
  destruct w as [cfg cp sp r th e me t n tr].
  unfold start. run. cbv [set_running set_reboot_thread]. run.
  destruct r; cbv zeta; cbn [fst snd];
    (erewrite added_app
       by (cbv [trace]; repeat rewrite <- app_assoc; reflexivity));
    repeat split.
Qed.

(** ** Configuration file *)

Lemma validate_spec (fields : list string) (config : json) :
  match validate fields config with
  | inr c =>
      c = config /\ forall f, In f fields -> py_in f config = Some true
  | inl (MissingField f) =>
      exists before after,
        fields = (before ++ f :: after)%list
        /\ py_in f config = Some false
        /\ forall g, In g before -> py_in g config = Some true
  | inl NotIterable => fields <> [] /\ forall f, py_in f config = None
  | inl _ => False
  end.
Proof.
  induction fields as [|f fields IH]; cbn [validate].
  - split; [reflexivity|]. intros f [].
  - destruct (py_in f config) as [[|]|] eqn:P.
    + destruct (validate fields config) as [[x|path|x|g|]|c]; try contradiction.
      * destruct IH as [before [after [E [Hg Hb]]]].
        exists (f :: before), after. subst fields. split; [reflexivity|].
        split; [assumption|]. intros h [<-|Hh]; auto.
      * destruct IH as [_ Hn]. rewrite Hn in P. discriminate.
      * destruct IH as [-> Hf]. split; [reflexivity|].
        intros h [<-|Hh]; auto.
    + exists [], fields. repeat split; auto. intros g [].
    + split; [discriminate|]. intros g.
      destruct config; try discriminate; reflexivity.
Qed.

(** X20: load_config returns the parsed document, unchanged, exactly when
    the test for the file returns true, opening and parsing it succeed and
    each of the four required names is in the document; for a JSON object
    that means: is one of its keys, whatever the value, and no other key is
    required. *)
Theorem load_config_accepts (config_path : string) (file_exists : result bool)
        (loaded : result json) (config : json) :
  (load_config config_path file_exists loaded = inr config
   <-> file_exists = Ok true /\ loaded = Ok config
       /\ forall f, In f required_fields -> py_in f config = Some true)
  /\ (forall members,
         config = JObj members ->
         ((forall f, In f required_fields -> py_in f config = Some true)
          <-> forall f, In f required_fields -> In f (map fst members))).
Proof.
  split.
  - unfold load_config. destruct file_exists as [[|]|x].
    + destruct loaded as [c|e].
      * pose proof (validate_spec required_fields c) as V. split.
        -- intros H. rewrite H in V. destruct V as [-> Hf]. auto.
        -- intros [_ [E Hf]]. inversion E; subst c.
           destruct (validate required_fields config) as [[x|path|x|g|]|c'];
             try contradiction.
           ++ destruct V as [before [after [Ef [Hg _]]]].
              rewrite Hf in Hg; [discriminate|]. rewrite Ef.
              apply in_or_app. right. now left.
           ++ destruct V as [_ Hn].
              specialize (Hf "server_path" (or_introl eq_refl)).
              rewrite Hn in Hf. discriminate.
           ++ destruct V as [-> _]. reflexivity.
      * split; [discriminate|]. intros [_ [E _]]. discriminate.
    + split; [discriminate|]. intros [E _]. discriminate.
    + split; [discriminate|]. intros [E _]. discriminate.
  - intros members ->. cbn [py_in].
    split; intros H f Hf; specialize (H f Hf).
    + inversion H as [X]. apply existsb_exists in X. destruct X as [k [Hk Ek]].
      apply String.eqb_eq in Ek. now subst k.
    + f_equal. apply existsb_exists. exists f. split; [assumption|].
      apply String.eqb_refl.
Qed.

Lemma load_config_accepts_witness :
  load_config "reboot_config.json" (Ok true)
    (Ok (JObj [("restart_delay_seconds", JStr "soon");
               ("announcement_intervals", JNull);
               ("reboot_schedule", JInt 7);
               ("server_path", JArr [])]))
  = inr (JObj [("restart_delay_seconds", JStr "soon");
               ("announcement_intervals", JNull);
               ("reboot_schedule", JInt 7);
               ("server_path", JArr [])]).
Proof.
  apply (proj1 (load_config_accepts _ _ _ _)).
  split; [reflexivity|]. split; [reflexivity|].
  intros f [<-|[<-|[<-|[<-|[]]]]]; reflexivity.
Defined.

(** X21: when load_config fails, it is because the test for the file
    raised, and then that exception goes on to the caller; or because the
    file does not exist; or because opening or parsing it raised; or because
    a required name is missing, and then the name reported is the first
    missing one in the order server_path, reboot_schedule,
    announcement_intervals, restart_delay_seconds; or because the document
    is a number, a boolean or null.  The file is read only when the test
    has returned true. *)
Theorem load_config_rejects (config_path : string) (file_exists : result bool)
        (loaded : result json) (err : load_error) :
  load_config config_path file_exists loaded = inl err ->
  match err with
  | ExistsRaised e => file_exists = Raise e
  | ConfigNotFound path => path = config_path /\ file_exists = Ok false
  | LoadRaised e => file_exists = Ok true /\ loaded = Raise e
  | MissingField f =>
      file_exists = Ok true
      /\ exists config before after,
          loaded = Ok config
          /\ required_fields = (before ++ f :: after)%list
          /\ py_in f config = Some false
          /\ forall g, In g before -> py_in g config = Some true
  | NotIterable =>
      file_exists = Ok true
      /\ exists config, loaded = Ok config /\ forall f, py_in f config = None
  end.
Proof.
  unfold load_config. destruct file_exists as [[|]|x].
  - destruct loaded as [c|e].
    + pose proof (validate_spec required_fields c) as V. intros H.
      rewrite H in V. destruct err; try contradiction.
      * destruct V as [before [after V]]. split; [reflexivity|].
        exists c, before, after. tauto.
      * destruct V as [_ V]. split; [reflexivity|]. exists c. auto.
    + intros H. inversion H. auto.
  - intros H. inversion H. auto.
  - intros H. inversion H. auto.
Qed.

Lemma load_config_rejects_witness :
  exists config before after,
    Ok (JObj [("server_path", JStr "server.exe");
              ("announcement_intervals", JArr [])]) = Ok config
    /\ required_fields = (before ++ "reboot_schedule" :: after)%list
    /\ py_in "reboot_schedule" config = Some false
    /\ forall g, In g before -> py_in g config = Some true.
Proof.
  apply (load_config_rejects "reboot_config.json" (Ok true)
           (Ok (JObj [("server_path", JStr "server.exe");
                      ("announcement_intervals", JArr [])]))
           (MissingField "reboot_schedule")).
  reflexivity.
Defined.

(** ** How far the escalation goes *)

(** X22: on a running child with an open pipe the scheduled stop sequence
    goes exactly as far as it has to: it requests termination exactly when the
    child has not exited within the 60 seconds after the exit line, and it
    kills exactly when the child is still there 5 seconds after that. *)
Theorem escalation_goes_as_far_as_needed (w : World) (p : Popen) :
  server_process w = Some p ->
  stdin p = Some PipeOpen ->
  ends p = None ->
  let es := added w (snd (scheduled_stop w)) in
  (In (Terminate (pid p)) es
   <-> match exit_delay p with
       | Some d => timedelta_seconds 60 < d
       | None => True
       end)
  /\ (In (Kill (pid p)) es
      <-> match exit_delay p with
          | Some d => timedelta_seconds 65 < d
          | None => True
          end
          /\ match term_delay p with
             | Some d => timedelta_seconds 5 < d
             | None => True
             end).
Proof.
  intros Hsp Hin Hen.
  destruct w as [cfg cp sp r th e me t n tr].
  destruct p as [i sin en ed td].
  cbv [server_process stdin ends pid exit_delay term_delay] in *. subst.
  unfold scheduled_stop, send_command, wait_for_server_exit.
  rewrite sleep_nonneg by (apply timedelta_seconds_nonneg; lia).
  assert (S60 : timedelta_seconds 60 = 60000000) by reflexivity.
  assert (S5 : timedelta_seconds 5 = 5000000) by reflexivity.
  assert (S65 : timedelta_seconds 65 = 65000000) by reflexivity.
  run. change ("exit" ++ nl =? "exit" ++ nl)%string with true.
  destruct ed as [d|], td as [d'|]; run; split_cases; try discriminate;
    cbv zeta; cbn [snd];
    (erewrite added_app
       by (cbv [trace]; repeat rewrite <- app_assoc; reflexivity));
    cbn [In app]; reflect_comparisons;
    repeat match goal with
           | H : (if ?c then _ else _) = _ |- _ =>
               destruct c eqn:?; try discriminate
           end;
    reflect_comparisons;
    (split; split; intros;
     repeat match goal with
            | H : _ \/ _ |- _ => destruct H
            | H : _ /\ _ |- _ => destruct H
            end;
     try discriminate; try contradiction; try lia;
     try (split; lia); try (split; [lia|exact I]); try (split; [exact I|lia]);
     try (split; exact I); try exact I;
     auto 20).
Qed.

Lemma escalation_goes_as_far_as_needed_witness :
  In (Kill 4242)
     (added (sample_world [] (Some stubborn_child) 0)
            (snd (scheduled_stop (sample_world [] (Some stubborn_child) 0)))).
Proof.
  apply (proj2 (escalation_goes_as_far_as_needed
                  (sample_world [] (Some stubborn_child) 0) stubborn_child
                  eq_refl eq_refl eq_refl)).
  split; exact I.
Defined.

(** X23: on a running child with an open pipe, stop requests termination
    exactly when the child has not exited within the 30 seconds after the
    exit line. *)
Theorem stop_terminates_when_needed (w : World) (p : Popen) :
  server_process w = Some p ->
  stdin p = Some PipeOpen ->
  ends p = None ->
  In (Terminate (pid p)) (added w (snd (stop w)))
  <-> match exit_delay p with
      | Some d => timedelta_seconds 30 < d
      | None => True
      end.
Proof.
  intros Hsp Hin Hen.
  destruct w as [cfg cp sp r th e me t n tr].
  destruct p as [i sin en ed td].
  cbv [server_process stdin ends pid exit_delay term_delay] in *. subst.
  unfold stop, send_command, wait_for_server_exit.
  assert (S30 : timedelta_seconds 30 = 30000000) by reflexivity.
  run. change ("exit" ++ nl =? "exit" ++ nl)%string with true.
  destruct ed as [d|], td as [d'|]; run; split_cases; try discriminate;
    cbn [snd];
    (erewrite added_app
       by (cbv [trace]; repeat rewrite <- app_assoc; reflexivity));
    cbn [In app]; reflect_comparisons;
    repeat match goal with
           | H : (if ?c then _ else _) = _ |- _ =>
               destruct c eqn:?; try discriminate
           end;
    reflect_comparisons;
    (split; intros;
     repeat match goal with
            | H : _ \/ _ |- _ => destruct H
            end;
     try discriminate; try contradiction; try lia; try exact I;
     auto 20).
Qed.

Lemma stop_terminates_when_needed_witness :
  In (Terminate 4242)
     (added (sample_world [] (Some stubborn_child) 0)
            (snd (stop (sample_world [] (Some stubborn_child) 0)))).
Proof.
  apply (stop_terminates_when_needed
           (sample_world [] (Some stubborn_child) 0) stubborn_child
           eq_refl eq_refl eq_refl).
  exact I.
Defined.

(** ** The hint from the child's log *)

Lemma last_lines_short (lines : list string) :
  (List.length (last_lines lines) <= 10)%nat.
Proof.
  unfold last_lines. rewrite length_skipn. lia.
Qed.

Lemma last_lines_In (line : string) (lines : list string) :
  In line (last_lines lines) -> In line lines.
Proof.
  unfold last_lines. generalize (List.length lines - 10)%nat as k.
  intros k. revert lines. induction k as [|k IH]; intros [|x lines]; simpl; auto.
Qed.

(** X24: the scan of the child's newest log writes at most one ERROR
    record; the line it reports is one of the last ten lines of the file, a
    line about a port failure if one of those ten is, otherwise a line that
    holds ERR. *)
Theorem scan_log_reports_one_line (lines : list string) (w : World) :
  scan_log lines w = (Ok tt, w)
  \/ exists line msg,
      scan_log lines w = (Ok tt, emit (Log ERROR msg [AStr (strip line)]) w)
      /\ In line (last_lines lines)
      /\ (List.length (last_lines lines) <= 10)%nat
      /\ (port_failure line = true
          \/ (contains "ERR" line = true
              /\ forall l, In l (last_lines lines) -> port_failure l = false)).
Proof.
  unfold scan_log. destruct lines as [|l0 ls]; [now left|].
  set (lines := l0 :: ls).
  destruct (find port_failure (rev (last_lines lines))) as [line|] eqn:F.
  - right. apply find_some in F. destruct F as [Hin Hp]. apply in_rev in Hin.
    exists line. eexists. split; [reflexivity|].
    split; [assumption|]. split; [apply last_lines_short|]. now left.
  - destruct (contains "ERR" (join EmptyString (last_lines lines))); [|now left].
    destruct (find (contains "ERR") (rev (last_lines lines))) as [line|] eqn:G;
      [|now left].
    right. apply find_some in G. destruct G as [Hin He]. apply in_rev in Hin.
    exists line. eexists. split; [reflexivity|].
    split; [assumption|]. split; [apply last_lines_short|]. right.
    split; [assumption|]. intros l Hl.
    apply (find_none _ _ F). now apply in_rev in Hl.
Qed.
